(** * Webhook authentication and order lifecycle of the Sympla/Agroforestree middleware

    A shallow embedding of
    - [src/utils/signature.ts]      (class [SignatureValidator]),
    - [src/utils/tokenGenerator.ts] (class [TokenGenerator]),
    - [src/handlers/webhookHandler.ts] (class [WebhookHandler]), and its
      earlier copy, which processes approvals only,
    - the routes of [src/server.ts] that read the handler or a token,
    - [src/services/agroforestreeClient.ts] ([createDonation]),
    followed by the properties the specification states about them and by
    further properties of the code.

    Conventions of the embedding.
    - A JavaScript string is a [string]; each [ascii] is one UTF-16 code unit
      below 256.  HTTP header values reach the handler in that range.
    - A [Buffer] is a [list byte].
    - A JavaScript number that holds an instant or a count is a [Z].
    - Functions of the Node.js runtime ([crypto.createHmac], [JSON],
      base64url buffers, [Date.parse]) are the methods of the class
      [NodeRuntime]; the properties of them that a proof relies on are stated
      as hypotheses of the section that uses them.  A reference runtime
      ([node], with HMAC-SHA256 written out after RFC 2104 and FIPS 180-4)
      instantiates the class for the closed examples.
    - [Date.now()], [uuidv4()] and the outcome of the donation gateway are read
      from the [World], which also holds the handler's [donationAttempts] map;
      exceptions are the [Throw] results of the monad [M]. *)

From Stdlib Require Import String Ascii List ZArith NArith Lia Bool.
From Stdlib Require Import Strings.Byte.
From Stdlib Require Import DecimalString DecimalZ DecimalPos.
Import ListNotations.

Local Open Scope string_scope.
Local Open Scope list_scope.

(* ================================================================== *)
(** * JavaScript strings *)
(* ================================================================== *)

Module JsString.

(** [WhiteSpace] and [LineTerminator] code units below 256: TAB, LF, VT, FF,
    CR, SP and NBSP; these are what [String.prototype.trim] removes. *)
Definition is_whitespace (c : ascii) : bool :=
  let n := N_of_ascii c in
  ((n =? 9) || (n =? 10) || (n =? 11) || (n =? 12) || (n =? 13)
   || (n =? 32) || (n =? 160))%N.

Fixpoint all_whitespace (s : string) : bool :=
  match s with
  | EmptyString => true
  | String c s' => is_whitespace c && all_whitespace s'
  end.

Fixpoint trimStart (s : string) : string :=
  match s with
  | EmptyString => EmptyString
  | String c s' => if is_whitespace c then trimStart s' else s
  end.

Fixpoint trimEnd (s : string) : string :=
  match s with
  | EmptyString => EmptyString
  | String c s' =>
      if is_whitespace c && all_whitespace s' then EmptyString
      else String c (trimEnd s')
  end.

(** [s.trim()] *)
Definition trim (s : string) : string := trimEnd (trimStart s).

(** Canonicalisation of a code unit under the [i] flag of a non-unicode
    regular expression: ASCII letters go to upper case; a code unit from 128
    on never canonicalises to an ASCII one. *)
Definition canonicalize (c : ascii) : ascii :=
  let n := N_of_ascii c in
  if ((97 <=? n) && (n <=? 122))%N then ascii_of_N (n - 32) else c.

(** The match of a literal pattern anchored at the start ([/^pat/i]):
    the rest of the subject after the match, when there is one. *)
Fixpoint match_prefix_i (pat s : string) : option string :=
  match pat with
  | EmptyString => Some s
  | String p pat' =>
      match s with
      | EmptyString => None
      | String c s' =>
          if (canonicalize c =? canonicalize p)%char
          then match_prefix_i pat' s' else None
      end
  end.

(** [s.replace(/^pat/i, '')] for a literal [pat]. *)
Definition replace_prefix_i (pat s : string) : string :=
  match match_prefix_i pat s with
  | Some rest => rest
  | None => s
  end.

(** [s.split(sep)] for a one-character separator. *)
Fixpoint split (sep : ascii) (s : string) : list string :=
  match s with
  | EmptyString => [EmptyString]
  | String c s' =>
      if (c =? sep)%char then EmptyString :: split sep s'
      else match split sep s' with
           | [] => [String c EmptyString]
           | seg :: segs => String c seg :: segs
           end
  end.

(** Number of occurrences of a code unit. *)
Fixpoint count (sep : ascii) (s : string) : nat :=
  match s with
  | EmptyString => 0
  | String c s' => (if (c =? sep)%char then 1 else 0) + count sep s'
  end.

(** Decimal rendering of an integer, as in a template literal. *)
Definition of_number (n : Z) : string := NilZero.string_of_int (Z.to_int n).

End JsString.

(* ================================================================== *)
(** * Buffers *)
(* ================================================================== *)

Module Buffer.

Definition byte_of_N (n : N) : byte := byte_of_ascii (ascii_of_N n).

(** [Buffer.from(s)] and [hmac.update(s)]: the UTF-8 bytes of a string
    (one byte below 128, two bytes from 128 to 255). *)
Definition utf8_of_char (c : ascii) : list byte :=
  let n := N_of_ascii c in
  if (n <? 128)%N then [byte_of_N n]
  else [byte_of_N (192 + n / 64); byte_of_N (128 + n mod 64)].

Fixpoint from (s : string) : list byte :=
  match s with
  | EmptyString => []
  | String c s' => utf8_of_char c ++ from s'
  end.

Definition hex_digit (n : N) : ascii :=
  if (n <? 10)%N then ascii_of_N (48 + n) else ascii_of_N (87 + n).

(** [buf.toString('hex')] and [hmac.digest('hex')]: two lower-case digits
    per byte. *)
Fixpoint toString_hex (b : list byte) : string :=
  match b with
  | [] => EmptyString
  | x :: b' =>
      let n := Byte.to_N x in
      String (hex_digit (n / 16)) (String (hex_digit (n mod 16)) (toString_hex b'))
  end.

Definition unhex (c : ascii) : option N :=
  let n := N_of_ascii c in
  if ((48 <=? n) && (n <=? 57))%N then Some (n - 48)%N
  else if ((65 <=? n) && (n <=? 70))%N then Some (n - 55)%N
  else if ((97 <=? n) && (n <=? 102))%N then Some (n - 87)%N
  else None.

Definition is_hex_digit (c : ascii) : bool :=
  match unhex c with Some _ => true | None => false end.

(** [Buffer.from(s, 'hex')]: pairs of digits are decoded from the left; the
    decoding stops, keeping what was decoded, at the first pair that is
    not two hexadecimal digits, and a last unpaired character is dropped. *)
Fixpoint from_hex (s : string) : list byte :=
  match s with
  | String a (String b s') =>
      match unhex a, unhex b with
      | Some hi, Some lo => byte_of_N (16 * hi + lo)%N :: from_hex s'
      | _, _ => []
      end
  | _ => []
  end.

Fixpoint eqb (a b : list byte) : bool :=
  match a, b with
  | [], [] => true
  | x :: a', y :: b' => Byte.eqb x y && eqb a' b'
  | _, _ => false
  end.

End Buffer.

(* ================================================================== *)
(** * Exceptions *)
(* ================================================================== *)

Inductive JsError : Type :=
| TypeError
| RangeError
| SyntaxError
| Error (message : string).

Inductive Result (A : Type) : Type :=
| Return (a : A)
| Throw (e : JsError).

Arguments Return {A} a.
Arguments Throw {A} e.

(** [crypto.timingSafeEqual(a, b)]: a [RangeError] when the lengths differ,
    else whether the contents are equal. *)
Definition timingSafeEqual (a b : list byte) : Result bool :=
  if (List.length a =? List.length b)%nat then Return (Buffer.eqb a b)
  else Throw RangeError.

(* ================================================================== *)
(** * Data model ([src/types/index.ts], [src/utils/tokenGenerator.ts]) *)
(* ================================================================== *)

(** [DonationToken] *)
Record DonationToken : Type := {
  orderId : string;
  eventId : string;
  timestamp : Z;
  exp : Z
}.

(** [SymplaOrderData] *)
Record SymplaOrderData : Type := {
  order_identifier : string;
  event_id : string;
  event_name : string;
  total_order_amount : Z;
  buyer_first_name : string;
  buyer_last_name : string;
  buyer_email : string;
  order_status : string
}.

(** [SymplaWebhookPayload]; the field [timestamp] of the source is
    [payload_timestamp] here. *)
Record SymplaWebhookPayload : Type := {
  event : string;
  data : SymplaOrderData;
  payload_timestamp : option string
}.

(** [AgroforestreeApiRequest] *)
Record AgroforestreeApiRequest : Type := {
  sourcePlatform : string;
  sourceOrderId : string;
  sourceEventId : string;
  donorName : string;
  donorEmail : string;
  donationValue : Z;
  campaignId : string
}.

(** [AgroforestreeApiResponse]; its [status] is [gateway_status] here. *)
Record AgroforestreeApiResponse : Type := {
  donationId : string;
  gateway_status : string;
  createdAt : string;
  certificateUrl : option string
}.

(** The values the handler assigns to [DonationAttempt.status]. *)
Inductive Status : Type :=
| PENDING_USER_ACTION
| CONSENT_GIVEN
| COMPLETED
| DECLINED
| CANCELLED
| REFUNDED.

(** [DonationAttempt]; its [event_name] is [attempt_event_name] here. *)
Record DonationAttempt : Type := {
  id : string;
  sympla_order_id : string;
  sympla_event_id : string;
  status : Status;
  donation_token : string;
  created_at : Z;
  updated_at : Z;
  donor_name : string;
  donor_email : string;
  attempt_event_name : string;
  order_amount : Z
}.

(** [attempt.status = s; attempt.updated_at = t] *)
Definition set_status (attempt : DonationAttempt) (s : Status) (t : Z)
  : DonationAttempt :=
  {| id := id attempt;
     sympla_order_id := sympla_order_id attempt;
     sympla_event_id := sympla_event_id attempt;
     status := s;
     donation_token := donation_token attempt;
     created_at := created_at attempt;
     updated_at := t;
     donor_name := donor_name attempt;
     donor_email := donor_email attempt;
     attempt_event_name := attempt_event_name attempt;
     order_amount := order_amount attempt |}.

(* ================================================================== *)
(** * The Node.js runtime *)
(* ================================================================== *)

(** The library functions the three classes call.
    - [hmac_sha256 key message]:
      [crypto.createHmac('sha256', key).update(message).digest()];
    - [base64url_encode b]: [b.toString('base64url')];
    - [base64url_decode s]: [Buffer.from(s, 'base64url')];
    - [JSON_stringify t]: [JSON.stringify(t)] on a [DonationToken];
    - [JSON_parse_token b]: [JSON.parse(b.toString())] read at the type
      [DonationToken] the source gives it, [None] when it throws;
    - [JSON_parse_payload b]: the same at the type [SymplaWebhookPayload];
    - [Date_parse s]: [new Date(s).getTime()], [None] for [NaN]. *)
Class NodeRuntime : Type := {
  hmac_sha256 : list byte -> list byte -> list byte;
  base64url_encode : list byte -> string;
  base64url_decode : string -> list byte;
  JSON_stringify : DonationToken -> string;
  JSON_parse_token : list byte -> option DonationToken;
  JSON_parse_payload : list byte -> option SymplaWebhookPayload;
  Date_parse : string -> option Z
}.

(* ================================================================== *)
(** * [Map<string, DonationAttempt>] *)
(* ================================================================== *)

(** A JavaScript [Map] keeps its entries in insertion order; [set] on a key
    that is present replaces the value where it stands. *)
Module JsMap.

Definition t (V : Type) : Type := list (string * V).

Definition empty {V : Type} : t V := [].

Fixpoint get {V : Type} (k : string) (m : t V) : option V :=
  match m with
  | [] => None
  | (k', v) :: m' => if (k' =? k)%string then Some v else get k m'
  end.

Fixpoint set {V : Type} (k : string) (v : V) (m : t V) : t V :=
  match m with
  | [] => [(k, v)]
  | (k', v') :: m' =>
      if (k' =? k)%string then (k', v) :: m' else (k', v') :: set k v m'
  end.

Definition keys {V : Type} (m : t V) : list string := map fst m.

(** [Array.from(m.values())] *)
Definition values {V : Type} (m : t V) : list V := map snd m.

(** Number of entries stored under a key. *)
Fixpoint count_key {V : Type} (k : string) (m : t V) : nat :=
  match m with
  | [] => 0
  | (k', _) :: m' => (if (k' =? k)%string then 1 else 0) + count_key k m'
  end.

End JsMap.

(* ================================================================== *)
(** * The world and the monad of effects *)
(* ================================================================== *)

(** What a request handler can observe and change: the handler's map, and
    what the next calls of [Date.now()], [uuidv4()] and
    [agroforestreeClient.createDonation] will return ([None]: the promise
    rejects). *)
Record World : Type := {
  donationAttempts : JsMap.t DonationAttempt;
  clock : nat -> Z;
  uuids : nat -> string;
  gateway : nat -> AgroforestreeApiRequest -> option AgroforestreeApiResponse
}.

Definition M (A : Type) : Type := World -> Result A * World.

Definition ret {A : Type} (a : A) : M A := fun w => (Return a, w).

Definition throw {A : Type} (e : JsError) : M A := fun w => (Throw e, w).

Definition bind {A B : Type} (m : M A) (k : A -> M B) : M B :=
  fun w =>
    match m w with
    | (Return a, w') => k a w'
    | (Throw e, w') => (Throw e, w')
    end.

(** [try { m } catch (error) { h error }] *)
Definition try_catch {A : Type} (m : M A) (h : JsError -> M A) : M A :=
  fun w =>
    match m w with
    | (Return a, w') => (Return a, w')
    | (Throw e, w') => h e w'
    end.

Definition lift {A : Type} (r : Result A) : M A := fun w => (r, w).

Declare Scope js_scope.
Delimit Scope js_scope with js.
Notation "x <- m ;; k" := (bind m (fun x => k))
  (at level 61, m at next level, right associativity) : js_scope.
Notation "m ;; k" := (bind m (fun _ => k))
  (at level 61, right associativity) : js_scope.
Local Open Scope js_scope.

(** What a source of readings yields after its first one. *)
Definition later {A : Type} (f : nat -> A) : nat -> A := fun n => f (S n).

(** [Date.now()] and [new Date()] *)
Definition Date_now : M Z :=
  fun w =>
    (Return (clock w 0),
     {| donationAttempts := donationAttempts w;
        clock := later (clock w);
        uuids := uuids w;
        gateway := gateway w |}).

(** [uuidv4()] *)
Definition uuidv4 : M string :=
  fun w =>
    (Return (uuids w 0),
     {| donationAttempts := donationAttempts w;
        clock := clock w;
        uuids := later (uuids w);
        gateway := gateway w |}).

(** [await this.agroforestreeClient.createDonation(donationData)] *)
Definition createDonation (donationData : AgroforestreeApiRequest)
  : M AgroforestreeApiResponse :=
  fun w =>
    let w' := {| donationAttempts := donationAttempts w;
                 clock := clock w;
                 uuids := uuids w;
                 gateway := later (gateway w) |} in
    match gateway w 0 donationData with
    | Some response => (Return response, w')
    | None => (Throw (Error "Falha na criacao de doacao"), w')
    end.

(** [this.donationAttempts.get(k)] *)
Definition donationAttempts_get (k : string) : M (option DonationAttempt) :=
  fun w => (Return (JsMap.get k (donationAttempts w)), w).

(** [this.donationAttempts.set(k, attempt)] *)
Definition donationAttempts_set (k : string) (attempt : DonationAttempt)
  : M unit :=
  fun w =>
    (Return tt,
     {| donationAttempts := JsMap.set k attempt (donationAttempts w);
        clock := clock w;
        uuids := uuids w;
        gateway := gateway w |}).

(* ================================================================== *)
(** * [SignatureValidator] ([src/utils/signature.ts]) *)
(* ================================================================== *)

Section SignatureValidator.

Context {runtime : NodeRuntime}.

(** [this.secret] *)
Variable secret : string.

(** [validateSignature(payload, signature)]; an absent header is [None]. *)
Definition validateSignature (payload : list byte) (signature : option string)
  : bool :=
  match signature with
  | None => false
  | Some EmptyString => false
  | Some signature =>
      let receivedSignature :=
        JsString.trim (JsString.replace_prefix_i "sha256=" signature) in
      let expectedSignature :=
        Buffer.toString_hex (hmac_sha256 (Buffer.from secret) payload) in
      let receivedBuffer := Buffer.from_hex receivedSignature in
      let expectedBuffer := Buffer.from_hex expectedSignature in
      if negb (List.length receivedBuffer =? List.length expectedBuffer)%nat
      then false
      else
        match timingSafeEqual receivedBuffer expectedBuffer with
        | Return isValid => isValid
        | Throw _ => false
        end
  end.

(** [validateTimestamp(timestamp, toleranceMinutes = 5)]; an omitted second
    argument is [None]. *)
Definition validateTimestamp (timestamp : string) (toleranceMinutes : option Z)
  : M bool :=
  let toleranceMinutes :=
    match toleranceMinutes with Some m => m | None => 5%Z end in
  let webhookTime := Date_parse timestamp in
  currentTime <- Date_now ;;
  let toleranceMs := (toleranceMinutes * 60 * 1000)%Z in
  ret match webhookTime with
      | Some webhookTime =>
          (Z.abs (currentTime - webhookTime) <=? toleranceMs)%Z
      | None => false
      end.

End SignatureValidator.

(* ================================================================== *)
(** * [TokenGenerator] ([src/utils/tokenGenerator.ts]) *)
(* ================================================================== *)

Section TokenGenerator.

Context {runtime : NodeRuntime}.

(** [this.secret] *)
Variable secret : string.

(** [signPayload(payload)] *)
Definition signPayload (payload : string) : string :=
  base64url_encode (hmac_sha256 (Buffer.from secret) (Buffer.from payload)).

(** [generateDonationToken(orderId, eventId)] *)
Definition generateDonationToken (orderId eventId : string) : M string :=
  timestamp <- Date_now ;;
  now <- Date_now ;;
  let payload :=
    {| orderId := orderId;
       eventId := eventId;
       timestamp := timestamp;
       exp := (now + 24 * 60 * 60 * 1000)%Z |} in
  let encodedPayload :=
    base64url_encode (Buffer.from (JSON_stringify payload)) in
  let signature := signPayload encodedPayload in
  ret (encodedPayload ++ "." ++ signature)%string.

(** [Buffer.from(x)] where [x] may be [undefined]. *)
Definition Buffer_from_value (x : option string) : Result (list byte) :=
  match x with
  | Some s => Return (Buffer.from s)
  | None => Throw TypeError
  end.

(** [validateToken(token)]; [null] is [None]. *)
Definition validateToken (token : string) : M (option DonationToken) :=
  try_catch
    (let parts := JsString.split "." token in
     let encodedPayload := hd EmptyString parts in
     let signature := nth_error parts 1 in
     let expectedSignature := signPayload encodedPayload in
     received <- lift (Buffer_from_value signature) ;;
     equal <- lift (timingSafeEqual received (Buffer.from expectedSignature)) ;;
     if negb equal then ret None
     else
       payload <-
         lift match JSON_parse_token (base64url_decode encodedPayload) with
              | Some payload => Return payload
              | None => Throw SyntaxError
              end ;;
       now <- Date_now ;;
       if (now >? exp payload)%Z then ret None
       else ret (Some payload))
    (fun _ => ret None).

End TokenGenerator.

(* ================================================================== *)
(** * [WebhookHandler] ([src/handlers/webhookHandler.ts]) *)
(* ================================================================== *)

(** The part of an Express request the handler reads. *)
Record Request : Type := {
  headers : string -> option string;
  body : list byte
}.

(** What the handler sends: [res.status(statusCode).json(json)]. *)
Inductive ResponseBody : Type :=
| InvalidSignature (error : string) (received origin : option string)
| Acknowledgment (status message : string) (timestamp : Z)
| InternalError (error : string).

Record Response : Type := {
  statusCode : Z;
  json : ResponseBody
}.

Section WebhookHandler.

Context {runtime : NodeRuntime}.

(** The [webhookSecret] given to the constructor, which both
    [this.signatureValidator] and [this.tokenGenerator] receive. *)
Variable webhookSecret : string.

Definition donorName_of (orderData : SymplaOrderData) : string :=
  (buyer_first_name orderData ++ " " ++ buyer_last_name orderData)%string.

(** [createDonationWithConsent(orderData, donationAttempt)] *)
Definition createDonationWithConsent
  (orderData : SymplaOrderData) (donationAttempt : DonationAttempt) : M unit :=
  try_catch
    (let donationRequest :=
       {| sourcePlatform := "Sympla";
          sourceOrderId := order_identifier orderData;
          sourceEventId := event_id orderData;
          donorName := donorName_of orderData;
          donorEmail := buyer_email orderData;
          donationValue := 5;
          campaignId := "sympla-geral-2024" |} in
     donationResponse <- createDonation donationRequest ;;
     now <- Date_now ;;
     donationAttempts_set (order_identifier orderData)
       (set_status donationAttempt COMPLETED now))
    (fun _ =>
       now <- Date_now ;;
       donationAttempts_set (order_identifier orderData)
         (set_status donationAttempt DECLINED now)).

(** [handleOrderApproved(orderData)] *)
Definition handleOrderApproved (orderData : SymplaOrderData) : M unit :=
  id <- uuidv4 ;;
  token <- generateDonationToken webhookSecret
             (order_identifier orderData) (event_id orderData) ;;
  created <- Date_now ;;
  updated <- Date_now ;;
  let donationAttempt :=
    {| id := id;
       sympla_order_id := order_identifier orderData;
       sympla_event_id := event_id orderData;
       status := PENDING_USER_ACTION;
       donation_token := token;
       created_at := created;
       updated_at := updated;
       donor_name := donorName_of orderData;
       donor_email := buyer_email orderData;
       attempt_event_name := event_name orderData;
       order_amount := total_order_amount orderData |} in
  donationAttempts_set (order_identifier orderData) donationAttempt ;;
  createDonationWithConsent orderData donationAttempt.

(** [handleOrderCancelled(orderData)] *)
Definition handleOrderCancelled (orderData : SymplaOrderData) : M unit :=
  existingAttempt <- donationAttempts_get (order_identifier orderData) ;;
  match existingAttempt with
  | Some existingAttempt =>
      now <- Date_now ;;
      donationAttempts_set (order_identifier orderData)
        (set_status existingAttempt CANCELLED now)
  | None =>
      id <- uuidv4 ;;
      created <- Date_now ;;
      updated <- Date_now ;;
      let cancelledAttempt :=
        {| id := id;
           sympla_order_id := order_identifier orderData;
           sympla_event_id := event_id orderData;
           status := CANCELLED;
           donation_token := "";
           created_at := created;
           updated_at := updated;
           donor_name := donorName_of orderData;
           donor_email := buyer_email orderData;
           attempt_event_name := event_name orderData;
           order_amount := total_order_amount orderData |} in
      donationAttempts_set (order_identifier orderData) cancelledAttempt
  end.

(** [handleOrderRefunded(orderData)] *)
Definition handleOrderRefunded (orderData : SymplaOrderData) : M unit :=
  existingAttempt <- donationAttempts_get (order_identifier orderData) ;;
  match existingAttempt with
  | Some existingAttempt =>
      now <- Date_now ;;
      donationAttempts_set (order_identifier orderData)
        (set_status existingAttempt REFUNDED now)
  | None =>
      id <- uuidv4 ;;
      now <- Date_now ;;
      created <- Date_now ;;
      updated <- Date_now ;;
      let refundedAttempt :=
        {| id := id;
           sympla_order_id := order_identifier orderData;
           sympla_event_id := event_id orderData;
           status := REFUNDED;
           donation_token := ("token_" ++ JsString.of_number now)%string;
           created_at := created;
           updated_at := updated;
           donor_name := donorName_of orderData;
           donor_email := buyer_email orderData;
           attempt_event_name := event_name orderData;
           order_amount := total_order_amount orderData |} in
      donationAttempts_set (order_identifier orderData) refundedAttempt
  end.

(** The [switch (payload.event)] of [processWebhook]. *)
Definition dispatch (payload : SymplaWebhookPayload) : M unit :=
  if (event payload =? "order.approved")%string
  then handleOrderApproved (data payload)
  else if (event payload =? "order.cancelled")%string
  then handleOrderCancelled (data payload)
  else if (event payload =? "order.refunded")%string
  then handleOrderRefunded (data payload)
  else if (event payload =? "order.created")%string
  then ret tt
  else ret tt.

(** [processWebhook(req, res)]; the result is what [res] was sent. *)
Definition processWebhook (req : Request) : M Response :=
  try_catch
    (let signature := headers req "x-sympla-signature" in
     if negb (validateSignature webhookSecret (body req) signature)
     then
       ret {| statusCode := 401;
              json := InvalidSignature "Invalid signature" signature
                        (headers req "origin") |}
     else
       payload <-
         lift match JSON_parse_payload (body req) with
              | Some payload => Return payload
              | None => Throw SyntaxError
              end ;;
       dispatch payload ;;
       now <- Date_now ;;
       ret {| statusCode := 200;
              json := Acknowledgment "success"
                        "Webhook processado com sucesso" now |})
    (fun _ =>
       ret {| statusCode := 500;
              json := InternalError "Internal server error" |}).

(** [getDonations()] *)
Definition getDonations (w : World) : list DonationAttempt :=
  JsMap.values (donationAttempts w).

End WebhookHandler.

(* ================================================================== *)
(** * A reference runtime *)
(* ================================================================== *)

(** SHA-256 (FIPS 180-4) on 32-bit words held in [Z]. *)
Module SHA256.

Local Open Scope Z_scope.

Definition w32 (x : Z) : Z := x mod 4294967296.

Definition rotr (n x : Z) : Z :=
  Z.lor (Z.shiftr x n) (w32 (Z.shiftl x (32 - n))).

Definition Ch (x y z : Z) : Z :=
  Z.lxor (Z.land x y) (Z.land (Z.lxor x 4294967295) z).

Definition Maj (x y z : Z) : Z :=
  Z.lxor (Z.land x y) (Z.lxor (Z.land x z) (Z.land y z)).

Definition Sigma0 (x : Z) : Z :=
  Z.lxor (rotr 2 x) (Z.lxor (rotr 13 x) (rotr 22 x)).

Definition Sigma1 (x : Z) : Z :=
  Z.lxor (rotr 6 x) (Z.lxor (rotr 11 x) (rotr 25 x)).

Definition sigma0 (x : Z) : Z :=
  Z.lxor (rotr 7 x) (Z.lxor (rotr 18 x) (Z.shiftr x 3)).

Definition sigma1 (x : Z) : Z :=
  Z.lxor (rotr 17 x) (Z.lxor (rotr 19 x) (Z.shiftr x 10)).

(** The first primes, by trial division. *)
Definition is_prime (n : Z) : bool :=
  (1 <? n)
  && forallb (fun d => negb (n mod Z.of_nat d =? 0))
       (seq 2 (Z.to_nat n - 2)).

Definition primes (count : nat) : list Z :=
  firstn count (filter is_prime (map Z.of_nat (seq 2 400))).

(** The integer cube root of a number below 2 ^ (3 * bits). *)
Fixpoint cube_root (bits : nat) (r n : Z) : Z :=
  match bits with
  | O => r
  | S bits' =>
      let r' := r + 2 ^ Z.of_nat bits' in
      cube_root bits' (if r' * r' * r' <=? n then r' else r) n
  end.

(** The round constants: the first 32 bits of the fractional parts of the
    cube roots of the first 64 primes. *)
Definition K : list Z :=
  Eval vm_compute in
    map (fun p => w32 (cube_root 40 0 (p * 2 ^ 96))) (primes 64).

Record state : Type := mkState {
  sa : Z; sb : Z; sc : Z; sd : Z; se : Z; sf : Z; sg : Z; sh : Z
}.

(** The initial hash value: the first 32 bits of the fractional parts of the
    square roots of the first 8 primes. *)
Definition initial : list Z :=
  Eval vm_compute in map (fun p => w32 (Z.sqrt (p * 2 ^ 64))) (primes 8).

Definition H0 : state :=
  match initial with
  | [a; b; c; d; e; f; g; h] => mkState a b c d e f g h
  | _ => mkState 0 0 0 0 0 0 0 0
  end.

Definition round (k w : Z) (s : state) : state :=
  let t1 := sh s + Sigma1 (se s) + Ch (se s) (sf s) (sg s) + k + w in
  let t2 := Sigma0 (sa s) + Maj (sa s) (sb s) (sc s) in
  mkState (w32 (t1 + t2)) (sa s) (sb s) (sc s)
          (w32 (sd s + t1)) (se s) (sf s) (sg s).

(** The 64 rounds; [w] holds the sixteen words of the message schedule from
    the current one on. *)
Fixpoint rounds (ks : list Z) (w : list Z) (s : state) : state :=
  match ks with
  | [] => s
  | k :: ks' =>
      let wt := nth 0 w 0 in
      let next :=
        w32 (sigma1 (nth 14 w 0) + nth 9 w 0 + sigma0 (nth 1 w 0) + wt) in
      rounds ks' (List.tl w ++ [next]) (round k wt s)
  end.

Fixpoint words (block : list Z) : list Z :=
  match block with
  | a :: b :: c :: d :: block' =>
      (((a * 256 + b) * 256 + c) * 256 + d) :: words block'
  | _ => []
  end.

Definition compress (block : list Z) (s : state) : state :=
  let r := rounds K (words block) s in
  mkState (w32 (sa s + sa r)) (w32 (sb s + sb r))
          (w32 (sc s + sc r)) (w32 (sd s + sd r))
          (w32 (se s + se r)) (w32 (sf s + sf r))
          (w32 (sg s + sg r)) (w32 (sh s + sh r)).

Fixpoint blocks (fuel : nat) (msg : list Z) (s : state) : state :=
  match fuel with
  | O => s
  | S fuel' =>
      match msg with
      | [] => s
      | _ => blocks fuel' (skipn 64 msg) (compress (firstn 64 msg) s)
      end
  end.

Definition be_bytes (n : nat) (x : Z) : list Z :=
  map (fun i => (x / 256 ^ Z.of_nat i) mod 256) (rev (seq 0 n)).

Definition pad (msg : list Z) : list Z :=
  let len := Z.of_nat (List.length msg) in
  let zeros := Z.to_nat ((55 - len) mod 64) in
  msg ++ [128] ++ repeat 0 zeros ++ be_bytes 8 (8 * len).

Definition word_bytes (x : Z) : list byte :=
  [ Buffer.byte_of_N (Z.to_N (x / 16777216));
    Buffer.byte_of_N (Z.to_N ((x / 65536) mod 256));
    Buffer.byte_of_N (Z.to_N ((x / 256) mod 256));
    Buffer.byte_of_N (Z.to_N (x mod 256)) ].

Definition digest (s : state) : list byte :=
  word_bytes (sa s) ++ word_bytes (sb s) ++ word_bytes (sc s)
  ++ word_bytes (sd s) ++ word_bytes (se s) ++ word_bytes (sf s)
  ++ word_bytes (sg s) ++ word_bytes (sh s).

Definition Z_of_byte (b : byte) : Z := Z.of_N (Byte.to_N b).

Definition sha256 (msg : list byte) : list byte :=
  let p := pad (map Z_of_byte msg) in
  digest (blocks (List.length p) p H0).

End SHA256.

(** HMAC (RFC 2104) over SHA-256, whose block is 64 bytes long. *)
Module HMAC.

Definition xor_byte (x : Z) (b : byte) : byte :=
  Buffer.byte_of_N (Z.to_N (Z.lxor x (SHA256.Z_of_byte b))).

Definition block_key (key : list byte) : list byte :=
  let k := if (64 <? List.length key)%nat then SHA256.sha256 key else key in
  k ++ repeat x00 (64 - List.length k).

Definition hmac_sha256 (key message : list byte) : list byte :=
  let k := block_key key in
  SHA256.sha256
    (map (xor_byte 0x5c) k
     ++ SHA256.sha256 (map (xor_byte 0x36) k ++ message)).

End HMAC.

(** The base64url codec of [Buffer] (RFC 4648, section 5, no padding). *)
Module Base64url.

(** Six bits, the most significant first. *)
Inductive sextet : Type :=
| Sextet (b5 b4 b3 b2 b1 b0 : bool).

Definition bit (i : N) (x : byte) : bool := N.testbit (Byte.to_N x) i.

Definition N_of_bit (b : bool) : N := if b then 1%N else 0%N.

Definition byte_of_bits (b7 b6 b5 b4 b3 b2 b1 b0 : bool) : byte :=
  Buffer.byte_of_N
    (128 * N_of_bit b7 + 64 * N_of_bit b6 + 32 * N_of_bit b5
     + 16 * N_of_bit b4 + 8 * N_of_bit b3 + 4 * N_of_bit b2
     + 2 * N_of_bit b1 + N_of_bit b0)%N.

Definition N_of_sextet (s : sextet) : N :=
  match s with
  | Sextet b5 b4 b3 b2 b1 b0 =>
      (32 * N_of_bit b5 + 16 * N_of_bit b4 + 8 * N_of_bit b3
       + 4 * N_of_bit b2 + 2 * N_of_bit b1 + N_of_bit b0)%N
  end.

Definition sextet_of_N (n : N) : sextet :=
  Sextet (N.testbit n 5) (N.testbit n 4) (N.testbit n 3)
         (N.testbit n 2) (N.testbit n 1) (N.testbit n 0).

(** The alphabet: [A-Z], [a-z], [0-9], [-] and [_]. *)
Definition char_of_sextet (s : sextet) : ascii :=
  let n := N_of_sextet s in
  if (n <? 26)%N then ascii_of_N (65 + n)
  else if (n <? 52)%N then ascii_of_N (71 + n)
  else if (n <? 62)%N then ascii_of_N (n - 4)
  else if (n =? 62)%N then ascii_of_N 45
  else ascii_of_N 95.

(** The decoder also reads the [+] and [/] of the plain base64 alphabet. *)
Definition sextet_of_char (c : ascii) : option sextet :=
  let n := N_of_ascii c in
  if ((65 <=? n) && (n <=? 90))%N then Some (sextet_of_N (n - 65))
  else if ((97 <=? n) && (n <=? 122))%N then Some (sextet_of_N (n - 71))
  else if ((48 <=? n) && (n <=? 57))%N then Some (sextet_of_N (n + 4))
  else if ((n =? 45) || (n =? 43))%N then Some (sextet_of_N 62)
  else if ((n =? 95) || (n =? 47))%N then Some (sextet_of_N 63)
  else None.

Fixpoint sextets_of_bytes (bs : list byte) : list sextet :=
  match bs with
  | [] => []
  | [a] =>
      [ Sextet (bit 7 a) (bit 6 a) (bit 5 a) (bit 4 a) (bit 3 a) (bit 2 a);
        Sextet (bit 1 a) (bit 0 a) false false false false ]
  | [a; b] =>
      [ Sextet (bit 7 a) (bit 6 a) (bit 5 a) (bit 4 a) (bit 3 a) (bit 2 a);
        Sextet (bit 1 a) (bit 0 a) (bit 7 b) (bit 6 b) (bit 5 b) (bit 4 b);
        Sextet (bit 3 b) (bit 2 b) (bit 1 b) (bit 0 b) false false ]
  | a :: b :: c :: bs' =>
      Sextet (bit 7 a) (bit 6 a) (bit 5 a) (bit 4 a) (bit 3 a) (bit 2 a)
      :: Sextet (bit 1 a) (bit 0 a) (bit 7 b) (bit 6 b) (bit 5 b) (bit 4 b)
      :: Sextet (bit 3 b) (bit 2 b) (bit 1 b) (bit 0 b) (bit 7 c) (bit 6 c)
      :: Sextet (bit 5 c) (bit 4 c) (bit 3 c) (bit 2 c) (bit 1 c) (bit 0 c)
      :: sextets_of_bytes bs'
  end.

Fixpoint bytes_of_sextets (ss : list sextet) : list byte :=
  match ss with
  | Sextet a7 a6 a5 a4 a3 a2 :: Sextet a1 a0 b7 b6 b5 b4
    :: Sextet b3 b2 b1 b0 c7 c6 :: Sextet c5 c4 c3 c2 c1 c0 :: ss' =>
      byte_of_bits a7 a6 a5 a4 a3 a2 a1 a0
      :: byte_of_bits b7 b6 b5 b4 b3 b2 b1 b0
      :: byte_of_bits c7 c6 c5 c4 c3 c2 c1 c0
      :: bytes_of_sextets ss'
  | [ Sextet a7 a6 a5 a4 a3 a2; Sextet a1 a0 b7 b6 b5 b4;
      Sextet b3 b2 b1 b0 _ _ ] =>
      [ byte_of_bits a7 a6 a5 a4 a3 a2 a1 a0;
        byte_of_bits b7 b6 b5 b4 b3 b2 b1 b0 ]
  | [ Sextet a7 a6 a5 a4 a3 a2; Sextet a1 a0 _ _ _ _ ] =>
      [ byte_of_bits a7 a6 a5 a4 a3 a2 a1 a0 ]
  | _ => []
  end.

Fixpoint chars_of_sextets (ss : list sextet) : string :=
  match ss with
  | [] => EmptyString
  | s :: ss' => String (char_of_sextet s) (chars_of_sextets ss')
  end.

(** Characters outside both alphabets are passed over. *)
Fixpoint sextets_of_chars (s : string) : list sextet :=
  match s with
  | EmptyString => []
  | String c s' =>
      match sextet_of_char c with
      | Some x => x :: sextets_of_chars s'
      | None => sextets_of_chars s'
      end
  end.

Definition encode (b : list byte) : string :=
  chars_of_sextets (sextets_of_bytes b).

Definition decode (s : string) : list byte :=
  bytes_of_sextets (sextets_of_chars s).

End Base64url.

(** [JSON.stringify] and [JSON.parse] (ECMA-404) on texts whose numbers are
    integers and whose code units stay below 256. *)
Module JSON.

Definition dquote : ascii := ascii_of_N 34.
Definition backslash : ascii := ascii_of_N 92.

#[local] Unset Elimination Schemes.

Inductive value : Type :=
| Null
| Bool (b : bool)
| Number (n : Z)
| Str (s : string)
| Array (elements : list value)
| Object (members : list (string * value)).

#[local] Set Elimination Schemes.

(** ** Serialisation *)

Definition escape (c : ascii) : string :=
  let n := N_of_ascii c in
  if (n =? 34)%N then String backslash (String dquote EmptyString)
  else if (n =? 92)%N then String backslash (String backslash EmptyString)
  else if (n =? 8)%N then String backslash "b"
  else if (n =? 9)%N then String backslash "t"
  else if (n =? 10)%N then String backslash "n"
  else if (n =? 12)%N then String backslash "f"
  else if (n =? 13)%N then String backslash "r"
  else if (n <? 32)%N then
    String backslash
      (String "u" (String "0" (String "0"
        (String (Buffer.hex_digit (n / 16))
          (String (Buffer.hex_digit (n mod 16)) EmptyString)))))
  else String c EmptyString.

Fixpoint quote_body (s : string) : string :=
  match s with
  | EmptyString => EmptyString
  | String c s' => (escape c ++ quote_body s')%string
  end.

Definition stringify_string (s : string) : string :=
  String dquote (quote_body s ++ String dquote EmptyString)%string.

(** A member name that needs no escape, with its colon. *)
Definition key (k : string) : string :=
  String dquote (k ++ String dquote ":")%string.

(** [JSON.stringify({orderId, eventId, timestamp, exp})] *)
Definition stringify_token (t : DonationToken) : string :=
  ("{" ++ key "orderId" ++ stringify_string (orderId t)
   ++ "," ++ key "eventId" ++ stringify_string (eventId t)
   ++ "," ++ key "timestamp" ++ JsString.of_number (timestamp t)
   ++ "," ++ key "exp" ++ JsString.of_number (exp t) ++ "}")%string.

(** ** Parsing *)

Definition is_ws (c : ascii) : bool :=
  let n := N_of_ascii c in
  ((n =? 32) || (n =? 9) || (n =? 10) || (n =? 13))%N.

Fixpoint skip_ws (s : string) : string :=
  match s with
  | EmptyString => EmptyString
  | String c s' => if is_ws c then skip_ws s' else s
  end.

Definition prepend (c : ascii) (r : option (string * string))
  : option (string * string) :=
  match r with
  | Some (x, rest) => Some (String c x, rest)
  | None => None
  end.

Definition unhex4 (h1 h2 h3 h4 : ascii) : option N :=
  match Buffer.unhex h1, Buffer.unhex h2, Buffer.unhex h3, Buffer.unhex h4 with
  | Some a, Some b, Some c, Some d => Some (((a * 16 + b) * 16 + c) * 16 + d)%N
  | _, _, _, _ => None
  end.

(** The characters of a string literal after its opening quote, up to and
    including the closing one. *)
Fixpoint parse_string (s : string) : option (string * string) :=
  match s with
  | EmptyString => None
  | String c s' =>
      if (c =? dquote)%char then Some (EmptyString, s')
      else if (c =? backslash)%char then
        match s' with
        | EmptyString => None
        | String e s'' =>
            if (e =? dquote)%char then prepend dquote (parse_string s'')
            else if (e =? backslash)%char then prepend backslash (parse_string s'')
            else if (e =? "/")%char then prepend "/" (parse_string s'')
            else if (e =? "b")%char then prepend (ascii_of_N 8) (parse_string s'')
            else if (e =? "t")%char then prepend (ascii_of_N 9) (parse_string s'')
            else if (e =? "n")%char then prepend (ascii_of_N 10) (parse_string s'')
            else if (e =? "f")%char then prepend (ascii_of_N 12) (parse_string s'')
            else if (e =? "r")%char then prepend (ascii_of_N 13) (parse_string s'')
            else if (e =? "u")%char then
              match s'' with
              | String h1 (String h2 (String h3 (String h4 s3))) =>
                  match unhex4 h1 h2 h3 h4 with
                  | Some n =>
                      if (n <? 256)%N
                      then prepend (ascii_of_N n) (parse_string s3)
                      else None
                  | None => None
                  end
              | _ => None
              end
            else None
        end
      else if (N_of_ascii c <? 32)%N then None
      else prepend c (parse_string s')
  end.

Definition is_number_char (c : ascii) : bool :=
  let n := N_of_ascii c in
  ((n =? 45) || ((48 <=? n) && (n <=? 57)))%N.

Fixpoint span_number (s : string) : string * string :=
  match s with
  | EmptyString => (EmptyString, EmptyString)
  | String c s' =>
      if is_number_char c
      then let (digits, rest) := span_number s' in (String c digits, rest)
      else (EmptyString, s)
  end.

(** An integer in the form [JSON.stringify] writes it. *)
Definition parse_number (s : string) : option (Z * string) :=
  let (digits, rest) := span_number s in
  match NilZero.int_of_string digits with
  | Some d =>
      let n := Z.of_int d in
      if (JsString.of_number n =? digits)%string then Some (n, rest) else None
  | None => None
  end.

Definition literal (lit : string) (v : value) (s : string)
  : option (value * string) :=
  if String.prefix lit s
  then Some (v, String.substring (String.length lit)
                  (String.length s - String.length lit) s)
  else None.

Fixpoint parse_value (fuel : nat) (s : string) {struct fuel}
  : option (value * string) :=
  match fuel with
  | O => None
  | S fuel' =>
      match skip_ws s with
      | EmptyString => None
      | String c s' =>
          if (c =? dquote)%char then
            match parse_string s' with
            | Some (x, r) => Some (Str x, r)
            | None => None
            end
          else if (c =? "{")%char then
            match skip_ws s' with
            | String "}" r => Some (Object [], r)
            | _ =>
                match parse_members fuel' s' with
                | Some (ms, r) => Some (Object ms, r)
                | None => None
                end
            end
          else if (c =? "[")%char then
            match skip_ws s' with
            | String "]" r => Some (Array [], r)
            | _ =>
                match parse_elements fuel' s' with
                | Some (vs, r) => Some (Array vs, r)
                | None => None
                end
            end
          else if (c =? "t")%char then literal "true" (Bool true) (String c s')
          else if (c =? "f")%char then literal "false" (Bool false) (String c s')
          else if (c =? "n")%char then literal "null" Null (String c s')
          else
            match parse_number (String c s') with
            | Some (n, r) => Some (Number n, r)
            | None => None
            end
      end
  end

with parse_members (fuel : nat) (s : string) {struct fuel}
  : option (list (string * value) * string) :=
  match fuel with
  | O => None
  | S fuel' =>
      match skip_ws s with
      | EmptyString => None
      | String c s1 =>
          if (c =? dquote)%char then
            match parse_string s1 with
            | Some (k, s2) =>
                match skip_ws s2 with
                | String ":" s3 =>
                    match parse_value fuel' s3 with
                    | Some (v, s4) =>
                        match skip_ws s4 with
                        | String "," s5 =>
                            match parse_members fuel' s5 with
                            | Some (ms, r) => Some ((k, v) :: ms, r)
                            | None => None
                            end
                        | String "}" r => Some ([(k, v)], r)
                        | _ => None
                        end
                    | None => None
                    end
                | _ => None
                end
            | None => None
            end
          else None
      end
  end

with parse_elements (fuel : nat) (s : string) {struct fuel}
  : option (list value * string) :=
  match fuel with
  | O => None
  | S fuel' =>
      match parse_value fuel' s with
      | Some (v, s1) =>
          match skip_ws s1 with
          | String "," s2 =>
              match parse_elements fuel' s2 with
              | Some (vs, r) => Some (v :: vs, r)
              | None => None
              end
          | String "]" r => Some ([v], r)
          | _ => None
          end
      | None => None
      end
  end.

(** [JSON.parse(text)]; [None] for a [SyntaxError]. *)
Definition parse (text : string) : option value :=
  match parse_value (S (String.length text)) text with
  | Some (v, rest) =>
      match skip_ws rest with
      | EmptyString => Some v
      | _ => None
      end
  | None => None
  end.

(** [buf.toString()] when every code point is below 256. *)
Fixpoint utf8_decode (b : list byte) : option string :=
  match b with
  | [] => Some EmptyString
  | x :: b' =>
      let n := Byte.to_N x in
      if (n <? 128)%N then
        option_map (String (ascii_of_N n)) (utf8_decode b')
      else if ((n =? 194) || (n =? 195))%N then
        match b' with
        | y :: b'' =>
            let m := Byte.to_N y in
            if ((128 <=? m) && (m <? 192))%N
            then option_map (String (ascii_of_N ((n - 192) * 64 + (m - 128))))
                   (utf8_decode b'')
            else None
        | [] => None
        end
      else None
  end.

(** The value of a member; of two members of one name the later counts. *)
Fixpoint member (k : string) (ms : list (string * value)) : option value :=
  match ms with
  | [] => None
  | (k', v) :: ms' =>
      match member k ms' with
      | Some v' => Some v'
      | None => if (k' =? k)%string then Some v else None
      end
  end.

Definition string_member (k : string) (ms : list (string * value))
  : option string :=
  match member k ms with Some (Str s) => Some s | _ => None end.

Definition number_member (k : string) (ms : list (string * value))
  : option Z :=
  match member k ms with Some (Number n) => Some n | _ => None end.

Definition token_of_value (v : value) : option DonationToken :=
  match v with
  | Object ms =>
      match string_member "orderId" ms, string_member "eventId" ms,
            number_member "timestamp" ms, number_member "exp" ms with
      | Some o, Some e, Some t, Some x =>
          Some {| orderId := o; eventId := e; timestamp := t; exp := x |}
      | _, _, _, _ => None
      end
  | _ => None
  end.

Definition order_of_value (v : value) : option SymplaOrderData :=
  match v with
  | Object ms =>
      match string_member "order_identifier" ms, string_member "event_id" ms,
            string_member "event_name" ms,
            number_member "total_order_amount" ms,
            string_member "buyer_first_name" ms,
            string_member "buyer_last_name" ms,
            string_member "buyer_email" ms,
            string_member "order_status" ms with
      | Some oid, Some eid, Some en, Some amount,
        Some first, Some last, Some email, Some st =>
          Some {| order_identifier := oid; event_id := eid; event_name := en;
                  total_order_amount := amount; buyer_first_name := first;
                  buyer_last_name := last; buyer_email := email;
                  order_status := st |}
      | _, _, _, _, _, _, _, _ => None
      end
  | _ => None
  end.

Definition payload_of_value (v : value) : option SymplaWebhookPayload :=
  match v with
  | Object ms =>
      match string_member "event" ms, member "data" ms with
      | Some ev, Some d =>
          match order_of_value d with
          | Some o =>
              Some {| event := ev; data := o;
                      payload_timestamp := string_member "timestamp" ms |}
          | None => None
          end
      | _, _ => None
      end
  | _ => None
  end.

(** [JSON.stringify(payload)] on a [SymplaWebhookPayload] that has no
    [timestamp]. *)
Definition stringify_order (o : SymplaOrderData) : string :=
  ("{" ++ key "order_identifier" ++ stringify_string (order_identifier o)
   ++ "," ++ key "event_id" ++ stringify_string (event_id o)
   ++ "," ++ key "event_name" ++ stringify_string (event_name o)
   ++ "," ++ key "total_order_amount"
   ++ JsString.of_number (total_order_amount o)
   ++ "," ++ key "buyer_first_name" ++ stringify_string (buyer_first_name o)
   ++ "," ++ key "buyer_last_name" ++ stringify_string (buyer_last_name o)
   ++ "," ++ key "buyer_email" ++ stringify_string (buyer_email o)
   ++ "," ++ key "order_status" ++ stringify_string (order_status o)
   ++ "}")%string.

Definition stringify_payload (p : SymplaWebhookPayload) : string :=
  ("{" ++ key "event" ++ stringify_string (event p)
   ++ "," ++ key "data" ++ stringify_order (data p) ++ "}")%string.

Definition parse_as {A : Type} (read : value -> option A) (b : list byte)
  : option A :=
  match utf8_decode b with
  | Some text =>
      match parse text with
      | Some v => read v
      | None => None
      end
  | None => None
  end.

End JSON.

(** [Date.parse] on the format [toISOString] writes,
    [YYYY-MM-DDTHH:mm:ss.sssZ]. *)
Module IsoDate.

Local Open Scope Z_scope.

Definition digit (c : ascii) : option Z :=
  let n := N_of_ascii c in
  if ((48 <=? n) && (n <=? 57))%N then Some (Z.of_N (n - 48)) else None.

Fixpoint digits (acc : Z) (cs : list ascii) : option Z :=
  match cs with
  | [] => Some acc
  | c :: cs' =>
      match digit c with
      | Some d => digits (10 * acc + d) cs'
      | None => None
      end
  end.

Definition leap (y : Z) : bool :=
  ((y mod 4 =? 0) && negb (y mod 100 =? 0)) || (y mod 400 =? 0).

Definition days_in_month (y m : Z) : Z :=
  if m =? 2 then (if leap y then 29 else 28)
  else if (m =? 4) || (m =? 6) || (m =? 9) || (m =? 11) then 30
  else 31.

(** Days from 1970-01-01 to the given day of the proleptic Gregorian
    calendar. *)
Definition days_from_civil (y m d : Z) : Z :=
  let y' := if m <=? 2 then y - 1 else y in
  let era := y' / 400 in
  let yoe := y' - era * 400 in
  let doy := (153 * (if 2 <? m then m - 3 else m + 9) + 2) / 5 + d - 1 in
  let doe := yoe * 365 + yoe / 4 - yoe / 100 + doy in
  era * 146097 + doe - 719468.

Definition parse (s : string) : option Z :=
  match list_ascii_of_string s with
  | [y1; y2; y3; y4; "-"%char; m1; m2; "-"%char; d1; d2; "T"%char;
     h1; h2; ":"%char; n1; n2; ":"%char; s1; s2; "."%char; f1; f2; f3;
     "Z"%char] =>
      match digits 0 [y1; y2; y3; y4], digits 0 [m1; m2], digits 0 [d1; d2],
            digits 0 [h1; h2], digits 0 [n1; n2], digits 0 [s1; s2],
            digits 0 [f1; f2; f3] with
      | Some y, Some m, Some d, Some h, Some n, Some sec, Some ms =>
          if (1 <=? m) && (m <=? 12) && (1 <=? d) && (d <=? days_in_month y m)
             && (h <=? 23) && (n <=? 59) && (sec <=? 59)
          then Some ((((days_from_civil y m d * 24 + h) * 60 + n) * 60 + sec)
                     * 1000 + ms)
          else None
      | _, _, _, _, _, _, _ => None
      end
  | _ => None
  end.

End IsoDate.

(** The reference runtime. *)
#[export] Instance node : NodeRuntime := {
  hmac_sha256 := HMAC.hmac_sha256;
  base64url_encode := Base64url.encode;
  base64url_decode := Base64url.decode;
  JSON_stringify := JSON.stringify_token;
  JSON_parse_token := JSON.parse_as JSON.token_of_value;
  JSON_parse_payload := JSON.parse_as JSON.payload_of_value;
  Date_parse := IsoDate.parse
}.

(** Worlds for the closed examples: nothing stored, the clock standing at
    [now], and a gateway that answers every call, or none. *)
Definition a_response : AgroforestreeApiResponse :=
  {| donationId := "donation-123";
     gateway_status := "PENDING_PLANTING";
     createdAt := "2024-01-01T00:00:00Z";
     certificateUrl := None |}.

Definition world_at (now : Z) (gateway_up : bool) : World :=
  {| donationAttempts := JsMap.empty;
     clock := fun _ => now;
     uuids := fun _ => "mocked-uuid-123";
     gateway := fun _ _ => if gateway_up then Some a_response else None |}.

Definition an_order : SymplaOrderData :=
  {| order_identifier := "order-123";
     event_id := "event-456";
     event_name := "Test Event";
     total_order_amount := 100;
     buyer_first_name := "Joao";
     buyer_last_name := "Silva";
     buyer_email := "joao@example.com";
     order_status := "approved" |}.

(** An attempt stored for [an_order], and a world that holds it. *)
Definition an_attempt (s : Status) : DonationAttempt :=
  {| id := "mocked-uuid-123";
     sympla_order_id := "order-123";
     sympla_event_id := "event-456";
     status := s;
     donation_token := "";
     created_at := 0;
     updated_at := 0;
     donor_name := "Joao Silva";
     donor_email := "joao@example.com";
     attempt_event_name := "Test Event";
     order_amount := 100 |}.

Definition world_with (a : DonationAttempt) : World :=
  {| donationAttempts := [(sympla_order_id a, a)];
     clock := fun _ => 0%Z;
     uuids := fun _ => "mocked-uuid-123";
     gateway := fun _ _ => Some a_response |}.

Definition an_event (kind : string) : SymplaWebhookPayload :=
  {| event := kind; data := an_order; payload_timestamp := None |}.

(** A request whose only header is the signature, when there is one. *)
Definition request_with (signature : option string) (b : list byte) : Request :=
  {| headers := fun name =>
       if (name =? "x-sympla-signature")%string then signature else None;
     body := b |}.

(** The header a sender that holds [secret] computes for a body. *)
Definition sign {runtime : NodeRuntime} (secret : string) (b : list byte)
  : string :=
  ("sha256=" ++ Buffer.toString_hex (hmac_sha256 (Buffer.from secret) b))%string.

(* ================================================================== *)
(** * Words used by the statements *)
(* ================================================================== *)

(** Whether two strings are equal up to the case of ASCII letters. *)
Fixpoint eq_ignore_case (a b : string) : bool :=
  match a, b with
  | EmptyString, EmptyString => true
  | String x a', String y b' =>
      (JsString.canonicalize x =? JsString.canonicalize y)%char
      && eq_ignore_case a' b'
  | _, _ => false
  end.

(** Whether every character is a hexadecimal digit. *)
Fixpoint all_hex (s : string) : bool :=
  match s with
  | EmptyString => true
  | String c s' => Buffer.is_hex_digit c && all_hex s'
  end.

(** The law of [crypto]: an HMAC-SHA256 digest is 32 bytes long. *)
Definition hmac_length_law {runtime : NodeRuntime} : Prop :=
  forall key message, List.length (hmac_sha256 key message) = 32%nat.

(** The laws of [Buffer]: decoding what [toString('base64url')] wrote gives
    the bytes back, and the base64url alphabet has no dot. *)
Definition base64url_roundtrip_law {runtime : NodeRuntime} : Prop :=
  forall b, base64url_decode (base64url_encode b) = b.

Definition base64url_alphabet_law {runtime : NodeRuntime} : Prop :=
  forall b, JsString.count "." (base64url_encode b) = 0%nat.

(** The law of [JSON]: parsing the serialisation of a token gives it back. *)
Definition JSON_roundtrip_law {runtime : NodeRuntime} : Prop :=
  forall t, JSON_parse_token (Buffer.from (JSON_stringify t)) = Some t.

(** The request [createDonationWithConsent] sends for an order. *)
Definition donationRequest_of (orderData : SymplaOrderData)
  : AgroforestreeApiRequest :=
  {| sourcePlatform := "Sympla";
     sourceOrderId := order_identifier orderData;
     sourceEventId := event_id orderData;
     donorName := donorName_of orderData;
     donorEmail := buyer_email orderData;
     donationValue := 5;
     campaignId := "sympla-geral-2024" |}.

(** Whether the next call of the gateway, made for this order, succeeds. *)
Definition gateway_succeeds (w : World) (orderData : SymplaOrderData) : bool :=
  match gateway w 0 (donationRequest_of orderData) with
  | Some _ => true
  | None => false
  end.

(** The world after a sequence of events went through [dispatch], and after
    a sequence of requests went through [processWebhook]. *)
Fixpoint dispatch_all {runtime : NodeRuntime} (secret : string)
  (events : list SymplaWebhookPayload) (w : World) : World :=
  match events with
  | [] => w
  | ev :: events' => dispatch_all secret events' (snd (dispatch secret ev w))
  end.

Fixpoint serve {runtime : NodeRuntime} (secret : string)
  (requests : list Request) (w : World) : World :=
  match requests with
  | [] => w
  | req :: requests' => serve secret requests' (snd (processWebhook secret req w))
  end.

(** The transition table of the dispatcher as the handlers implement it:
    the status an attempt stored for the order has after an event of the
    given kind, [gateway_up] telling whether the gateway call succeeds. *)
Definition transition (kind : string) (gateway_up : bool) (s : Status) : Status :=
  if (kind =? "order.approved")%string
  then (if gateway_up then COMPLETED else DECLINED)
  else if (kind =? "order.cancelled")%string then CANCELLED
  else if (kind =? "order.refunded")%string then REFUNDED
  else s.

(** The status stored for an order, if any. *)
Definition status_of (k : string) (w : World) : option Status :=
  option_map status (JsMap.get k (donationAttempts w)).

(** The wire form of a token: the encoded payload, a dot, its signature. *)
Definition wire {runtime : NodeRuntime} (secret : string)
  (payload : DonationToken) : string :=
  let encodedPayload :=
    base64url_encode (Buffer.from (JSON_stringify payload)) in
  (encodedPayload ++ "." ++ signPayload secret encodedPayload)%string.

(** The world after [n] more readings of the clock. *)
Definition after_readings (n : nat) (w : World) : World :=
  {| donationAttempts := donationAttempts w;
     clock := fun i => clock w (n + i);
     uuids := uuids w;
     gateway := gateway w |}.

(** 24 hours in milliseconds. *)
Definition DAY : Z := 24 * 60 * 60 * 1000.

(* ================================================================== *)
(** * The earlier [WebhookHandler] (the second copy of
      [webhookHandler.ts]) *)
(* ================================================================== *)

Section EarlierWebhookHandler.

Context {runtime : NodeRuntime}.

Variable webhookSecret : string.

(** [processWebhook(req, res)] as the earlier handler has it: of the events
    it processes [order.approved] only.  Its [handleOrderApproved],
    [createDonationWithConsent] and [getDonations] are those above. *)
Definition processWebhook_approved_only (req : Request) : M Response :=
  try_catch
    (let signature := headers req "x-sympla-signature" in
     if negb (validateSignature webhookSecret (body req) signature)
     then
       ret {| statusCode := 401;
              json := InvalidSignature "Invalid signature" signature
                        (headers req "origin") |}
     else
       payload <-
         lift match JSON_parse_payload (body req) with
              | Some payload => Return payload
              | None => Throw SyntaxError
              end ;;
       (if (event payload =? "order.approved")%string
        then handleOrderApproved webhookSecret (data payload)
        else ret tt) ;;
       now <- Date_now ;;
       ret {| statusCode := 200;
              json := Acknowledgment "success"
                        "Webhook processado com sucesso" now |})
    (fun _ =>
       ret {| statusCode := 500;
              json := InternalError "Internal server error" |}).

End EarlierWebhookHandler.

(* ================================================================== *)
(** * The routes of [server.ts] that read the handler or a token *)
(* ================================================================== *)

Module Server.

(** [a || b] on a string that may be absent: [b] when [a] is [undefined] or
    empty. *)
Definition or_else (a : option string) (b : string) : string :=
  match a with
  | None => b
  | Some EmptyString => b
  | Some a => a
  end.

(** [!x] on a string that may be absent. *)
Definition is_falsy (x : option string) : bool :=
  match x with
  | None => true
  | Some EmptyString => true
  | Some _ => false
  end.

(** What a middleware or a route does with a request: it passes it on, or
    answers with a status and an [error], or sends a page. *)
Inductive Reply : Type :=
| Next
| ErrorReply (status : Z) (error : string)
| Page (content : string).

(** [authenticateApiKey(req, res, next)]; [API_KEY] is
    [process.env.API_KEY] and [apiKey] the header [x-api-key]. *)
Definition authenticateApiKey (API_KEY apiKey : option string) : Reply :=
  let validApiKey := or_else API_KEY "agroforestree-api-key-demo" in
  if is_falsy apiKey
     || negb (match apiKey with
              | Some k => (k =? validApiKey)%string
              | None => false
              end)
  then ErrorReply 401 "API Key invalida ou ausente"
  else Next.

(** [GET /donation/initiate]; [token] is [req.query.token], and the page
    stands for the HTML, in which the token is embedded. *)
Definition donation_initiate (token : option string) : Reply :=
  match token with
  | None => ErrorReply 400 "Token obrigatorio"
  | Some EmptyString => ErrorReply 400 "Token obrigatorio"
  | Some token =>
      if negb (String.prefix "eyJ" token)
      then ErrorReply 400 "Token invalido"
      else Page token
  end.

(** An item of [GET /api/donations]; [createdAt] is the instant that the
    route renders with [toISOString]. *)
Record DonationItem : Type := {
  item_id : string;
  item_donorName : string;
  item_status : Status;
  item_value : Z;
  item_createdAt : Z;
  item_eventName : string;
  item_orderId : string
}.

Record DonationsReply : Type := {
  donations : list DonationItem;
  total : nat;
  reply_timestamp : Z
}.

(** The mapping of an attempt [GET /api/donations] applies.  The optional
    [donor_name] and [event_name] of an attempt are strings here, absent
    when empty. *)
Definition item_of (attempt : DonationAttempt) : DonationItem :=
  {| item_id := id attempt;
     item_donorName :=
       or_else (Some (donor_name attempt))
         ("Doador " ++ sympla_order_id attempt);
     item_status := status attempt;
     item_value := 5;
     item_createdAt := created_at attempt;
     item_eventName :=
       or_else (Some (attempt_event_name attempt))
         ("Evento " ++ sympla_event_id attempt);
     item_orderId := sympla_order_id attempt |}.

(** [GET /api/donations] *)
Definition api_donations : M DonationsReply :=
  fun w =>
    let donationAttempts := getDonations w in
    let donations := map item_of donationAttempts in
    bind Date_now
      (fun now =>
         ret {| donations := donations;
                total := List.length donations;
                reply_timestamp := now |}) w.




(** The token [GET /events/:eventId/qrcode] puts in the link of the code,
    which leads to [GET /donation/initiate]. *)
Definition qrcode_token (eventId : string) : string :=
  ("eyJhbGciOiJIUzI1NiIs_EVENTO_" ++ eventId ++ "_TOKEN")%string.

(** The request [POST /simulate/sympla-webhook] sends to
    [/webhooks/sympla] for the raw payload it built: the payload and its
    signature under the configured secret. *)
Definition simulated_request {runtime : NodeRuntime} (secret : string)
  (rawPayload : list byte) : Request :=
  request_with (Some (sign secret rawPayload)) rawPayload.

End Server.

(* ================================================================== *)
(** * [AgroforestreeClient] ([src/services/agroforestreeClient.ts]) *)
(* ================================================================== *)

(** [s.includes(sub)] *)
Fixpoint includes (sub s : string) : bool :=
  String.prefix sub s
  || match s with
     | EmptyString => false
     | String _ s' => includes sub s'
     end.

Section AgroforestreeClient.

(** [this.client.defaults.baseURL], the request [this.client.post] makes,
    whose result is the [data] of the response, and [toISOString]. *)
Variable baseURL : string.
Variable post : string -> AgroforestreeApiRequest -> M AgroforestreeApiResponse.
Variable toISOString : Z -> string.

(** The text a thrown value has in a template literal. *)
Variable text_of : JsError -> string.

(** [createDonation(donationData)] of the client; the 500 milliseconds it
    waits in the simulation are not modelled, and the message of the error
    is written without its accents. *)
Definition client_createDonation (donationData : AgroforestreeApiRequest)
  : M AgroforestreeApiResponse :=
  try_catch
    (if includes "api.agroforestree.com" baseURL
     then
       id_now <- Date_now ;;
       created <- Date_now ;;
       url_now <- Date_now ;;
       ret {| donationId := ("AGF-" ++ JsString.of_number id_now)%string;
              gateway_status := "PENDING_PLANTING";
              createdAt := toISOString created;
              certificateUrl :=
                Some ("https://certificados.agroforestree.com/"
                      ++ JsString.of_number url_now ++ ".pdf")%string |}
     else post "/donations" donationData)
    (fun error =>
       throw (Error ("Falha na criacao de doacao: " ++ text_of error)%string)).

End AgroforestreeClient.

(* ================================================================== *)
(** * More words used by the statements *)
(* ================================================================== *)

(** Whether an event of this kind sets an entry of the map. *)
Definition sets_an_entry (kind : string) : bool :=
  ((kind =? "order.approved") || (kind =? "order.cancelled")
   || (kind =? "order.refunded"))%string.

(** The keys a map has after entries were set for [ks], one after the
    other, on a map whose keys were [seen]: each new key goes to the end. *)
Fixpoint first_seen (seen ks : list string) : list string :=
  match ks with
  | [] => seen
  | k :: ks' =>
      first_seen
        (if existsb (String.eqb k) seen then seen else seen ++ [k]) ks'
  end.

(** The orders of the events that set an entry, in the order of the events. *)
Definition orders_set (events : list SymplaWebhookPayload) : list string :=
  map (fun ev => order_identifier (data ev))
    (filter (fun ev => sets_an_entry (event ev)) events).

(** A clock that never goes back. *)
Definition monotone (clock : nat -> Z) : Prop :=
  forall i, (clock i <= clock (S i))%Z.

(** The four statuses a handler leaves an attempt in. *)
Definition is_settled (s : Status) : bool :=
  match s with
  | COMPLETED | DECLINED | CANCELLED | REFUNDED => true
  | PENDING_USER_ACTION | CONSENT_GIVEN => false
  end.

(** The attempt [handleOrderCancelled] and [handleOrderRefunded] make of one
    that exists: the same but for the status and [updated_at]. *)
Definition same_but_status (a a' : DonationAttempt) : Prop :=
  id a' = id a /\ sympla_order_id a' = sympla_order_id a
  /\ sympla_event_id a' = sympla_event_id a
  /\ donation_token a' = donation_token a /\ created_at a' = created_at a
  /\ donor_name a' = donor_name a /\ donor_email a' = donor_email a
  /\ attempt_event_name a' = attempt_event_name a
  /\ order_amount a' = order_amount a.

(** An entry that is well kept: stored under its own order, settled, with
    the name of a donor. *)
Definition well_kept (k : string) (a : DonationAttempt) : Prop :=
  sympla_order_id a = k /\ is_settled (status a) = true
  /\ donor_name a <> EmptyString.

(** A world whose clock never goes back and whose attempts were created
    before they were last updated, and updated before the present. *)
Definition well_stamped (w : World) : Prop :=
  monotone (clock w)
  /\ forall k a,
       In (k, a) (donationAttempts w) ->
       (created_at a <= updated_at a <= clock w 0)%Z.

(* ================================================================== *)
(** * Strings and buffers: lemmas *)
(* ================================================================== *)

Lemma append_assoc (a b c : string) : ((a ++ b) ++ c = a ++ (b ++ c))%string.
Proof. induction a as [|x a IH]; simpl; [reflexivity | now rewrite IH]. Qed.

Lemma append_empty_r (a : string) : (a ++ EmptyString)%string = a.
Proof. induction a as [|x a IH]; simpl; [reflexivity | now rewrite IH]. Qed.

Lemma all_whitespace_app (a b : string) :
  JsString.all_whitespace (a ++ b)
  = JsString.all_whitespace a && JsString.all_whitespace b.
Proof.
  induction a as [|x a IH]; simpl; [reflexivity|].
  now rewrite IH, andb_assoc.
Qed.

Lemma trimStart_whitespace (ws s : string) :
  JsString.all_whitespace ws = true ->
  JsString.trimStart (ws ++ s) = JsString.trimStart s.
Proof.
  induction ws as [|c ws IH]; simpl; [reflexivity|].
  intros H. apply andb_true_iff in H as [Hc Hws].
  rewrite Hc. now apply IH.
Qed.

Lemma trimEnd_all_whitespace (ws : string) :
  JsString.all_whitespace ws = true -> JsString.trimEnd ws = EmptyString.
Proof.
  destruct ws as [|c ws]; simpl; [reflexivity|].
  intros H. now rewrite H.
Qed.

Lemma trimEnd_whitespace (s ws : string) :
  JsString.all_whitespace ws = true ->
  JsString.trimEnd (s ++ ws) = JsString.trimEnd s.
Proof.
  intros Hws. induction s as [|c s IH]; simpl.
  - now apply trimEnd_all_whitespace.
  - now rewrite all_whitespace_app, Hws, andb_true_r, IH.
Qed.

Lemma hex_digit_not_whitespace (c : ascii) :
  Buffer.is_hex_digit c = true -> JsString.is_whitespace c = false.
Proof.
  destruct c as [[] [] [] [] [] [] [] []]; vm_compute; congruence.
Qed.

Lemma trimEnd_hex_app (s t : string) :
  all_hex s = true ->
  JsString.trimEnd (s ++ t) = (s ++ JsString.trimEnd t)%string.
Proof.
  induction s as [|c s IH]; simpl; [reflexivity|].
  intros H. apply andb_true_iff in H as [Hc Hs].
  now rewrite (hex_digit_not_whitespace c Hc), IH.
Qed.

Lemma trimStart_hex (s t : string) :
  all_hex s = true -> s <> EmptyString ->
  JsString.trimStart (s ++ t) = (s ++ t)%string.
Proof.
  destruct s as [|c s]; [congruence|]. simpl.
  intros H _. apply andb_true_iff in H as [Hc _].
  now rewrite (hex_digit_not_whitespace c Hc).
Qed.

(** Trimming removes the white space around a run of hexadecimal digits. *)
Lemma trim_around_hex (ws1 s ws2 : string) :
  JsString.all_whitespace ws1 = true ->
  JsString.all_whitespace ws2 = true ->
  all_hex s = true ->
  JsString.trim (ws1 ++ s ++ ws2) = s.
Proof.
  intros H1 H2 Hs. unfold JsString.trim.
  rewrite trimStart_whitespace by assumption.
  destruct s as [|c s].
  - simpl. rewrite <- (append_empty_r ws2) at 1.
    rewrite trimStart_whitespace by assumption. reflexivity.
  - rewrite trimStart_hex by (assumption || discriminate).
    rewrite trimEnd_hex_app by assumption.
    now rewrite trimEnd_all_whitespace, append_empty_r.
Qed.

Lemma match_prefix_i_app (pat p rest : string) :
  eq_ignore_case p pat = true ->
  JsString.match_prefix_i pat (p ++ rest) = Some rest.
Proof.
  revert p. induction pat as [|y pat IH]; intros [|x p]; simpl;
    try discriminate; [reflexivity|].
  intros H. apply andb_true_iff in H as [Hx Hp].
  rewrite Hx. now apply IH.
Qed.

Lemma hex_byte (x : byte) :
  let n := Byte.to_N x in
  Buffer.unhex (Buffer.hex_digit (n / 16)) = Some (n / 16)%N
  /\ Buffer.unhex (Buffer.hex_digit (n mod 16)) = Some (n mod 16)%N
  /\ Buffer.byte_of_N (16 * (n / 16) + n mod 16) = x.
Proof. destruct x; vm_compute; auto. Qed.

Lemma from_hex_toString_hex_app (b : list byte) (rest : string) :
  Buffer.from_hex (Buffer.toString_hex b ++ rest)
  = b ++ Buffer.from_hex rest.
Proof.
  induction b as [|x b IH]; [reflexivity|].
  destruct (hex_byte x) as (Hhi & Hlo & Hx).
  cbn [Buffer.toString_hex String.append Buffer.from_hex].
  rewrite Hhi, Hlo, Hx, IH. reflexivity.
Qed.

(** Decoding [buf.toString('hex')] gives the buffer back. *)
Lemma from_hex_toString_hex (b : list byte) :
  Buffer.from_hex (Buffer.toString_hex b) = b.
Proof.
  rewrite <- (append_empty_r (Buffer.toString_hex b)).
  rewrite from_hex_toString_hex_app. simpl. apply app_nil_r.
Qed.

Lemma all_hex_toString_hex (b : list byte) :
  all_hex (Buffer.toString_hex b) = true.
Proof.
  induction b as [|x b IH]; [reflexivity|].
  destruct (hex_byte x) as (Hhi & Hlo & _).
  cbn [Buffer.toString_hex all_hex]. unfold Buffer.is_hex_digit.
  rewrite Hhi, Hlo, IH. reflexivity.
Qed.

Lemma length_toString_hex (b : list byte) :
  String.length (Buffer.toString_hex b) = (2 * List.length b)%nat.
Proof. induction b as [|x b IH]; simpl; [reflexivity | rewrite IH; lia]. Qed.

Lemma all_hex_app (a b : string) :
  all_hex (a ++ b) = all_hex a && all_hex b.
Proof.
  induction a as [|x a IH]; simpl; [reflexivity|].
  now rewrite IH, andb_assoc.
Qed.

Lemma from_hex_not_hex (c : ascii) (s : string) :
  Buffer.is_hex_digit c = false -> Buffer.from_hex (String c s) = [].
Proof.
  unfold Buffer.is_hex_digit. intros H. destruct s as [|d s]; simpl.
  - reflexivity.
  - destruct (Buffer.unhex c); [discriminate | reflexivity].
Qed.

(** What [trimEnd] leaves starts as the string did. *)
Lemma trimEnd_head (c : ascii) (s : string) :
  JsString.trimEnd (String c s) = EmptyString
  \/ exists t, JsString.trimEnd (String c s) = String c t.
Proof.
  simpl. destruct (JsString.is_whitespace c && JsString.all_whitespace s).
  - now left.
  - right. now eexists.
Qed.

Lemma no_prefix_on_hex (x : byte) (s : string) :
  JsString.match_prefix_i "sha256="
    (String (Buffer.hex_digit (Byte.to_N x / 16)) s) = None.
Proof. destruct x; reflexivity. Qed.

Lemma no_prefix_on_whitespace (c : ascii) (s : string) :
  JsString.is_whitespace c = true ->
  JsString.match_prefix_i "sha256=" (String c s) = None.
Proof.
  destruct c as [[] [] [] [] [] [] [] []]; intros H;
    first [ discriminate H | reflexivity ].
Qed.

Lemma Buffer_eqb_refl (b : list byte) : Buffer.eqb b b = true.
Proof.
  induction b as [|x b IH]; simpl; [reflexivity|].
  now rewrite (Byte.byte_dec_lb (eq_refl x)), IH.
Qed.

Lemma Buffer_eqb_eq (a b : list byte) : Buffer.eqb a b = true -> a = b.
Proof.
  revert b. induction a as [|x a IH]; intros [|y b]; simpl;
    try discriminate; [reflexivity|].
  intros H. apply andb_true_iff in H as [Hx Hab].
  apply Byte.byte_dec_bl in Hx. f_equal; auto.
Qed.

Lemma timingSafeEqual_same (b : list byte) : timingSafeEqual b b = Return true.
Proof.
  unfold timingSafeEqual. now rewrite Nat.eqb_refl, Buffer_eqb_refl.
Qed.

(* ================================================================== *)
(** * The reference runtime: laws *)
(* ================================================================== *)

Lemma sha256_length (msg : list byte) : List.length (SHA256.sha256 msg) = 32%nat.
Proof. reflexivity. Qed.

Lemma node_hmac_length : @hmac_length_law node.
Proof. intros key message. apply sha256_length. Qed.

Lemma list_ind3 {A : Type} (P : list A -> Prop) :
  P [] -> (forall a, P [a]) -> (forall a b, P [a; b]) ->
  (forall a b c l, P l -> P (a :: b :: c :: l)) ->
  forall l, P l.
Proof.
  intros H0 H1 H2 H3. fix go 1.
  intros [|a [|b [|c l]]].
  - exact H0.
  - apply H1.
  - apply H2.
  - apply H3, go.
Qed.

Lemma byte_of_bits_bit (x : byte) :
  Base64url.byte_of_bits
    (Base64url.bit 7 x) (Base64url.bit 6 x) (Base64url.bit 5 x)
    (Base64url.bit 4 x) (Base64url.bit 3 x) (Base64url.bit 2 x)
    (Base64url.bit 1 x) (Base64url.bit 0 x) = x.
Proof. destruct x; reflexivity. Qed.

Lemma sextet_of_char_of_sextet (s : Base64url.sextet) :
  Base64url.sextet_of_char (Base64url.char_of_sextet s) = Some s.
Proof. destruct s as [[] [] [] [] [] []]; reflexivity. Qed.

Lemma char_of_sextet_not_dot (s : Base64url.sextet) :
  (Base64url.char_of_sextet s =? ".")%char = false.
Proof. destruct s as [[] [] [] [] [] []]; reflexivity. Qed.

Lemma sextets_of_chars_of_sextets (ss : list Base64url.sextet) :
  Base64url.sextets_of_chars (Base64url.chars_of_sextets ss) = ss.
Proof.
  induction ss as [|s ss IH]; simpl; [reflexivity|].
  now rewrite sextet_of_char_of_sextet, IH.
Qed.

Lemma bytes_of_sextets_of_bytes (bs : list byte) :
  Base64url.bytes_of_sextets (Base64url.sextets_of_bytes bs) = bs.
Proof.
  induction bs as [|a|a b|a b c bs IH] using list_ind3.
  - reflexivity.
  - cbn [Base64url.sextets_of_bytes Base64url.bytes_of_sextets].
    now rewrite byte_of_bits_bit.
  - cbn [Base64url.sextets_of_bytes Base64url.bytes_of_sextets].
    now rewrite !byte_of_bits_bit.
  - cbn [Base64url.sextets_of_bytes Base64url.bytes_of_sextets].
    now rewrite !byte_of_bits_bit, IH.
Qed.

Lemma node_base64url_roundtrip : @base64url_roundtrip_law node.
Proof.
  intros b. cbn [base64url_decode base64url_encode node].
  unfold Base64url.decode, Base64url.encode.
  now rewrite sextets_of_chars_of_sextets, bytes_of_sextets_of_bytes.
Qed.

Lemma node_base64url_alphabet : @base64url_alphabet_law node.
Proof.
  intros b. cbn [base64url_encode node]. unfold Base64url.encode.
  induction (Base64url.sextets_of_bytes b) as [|s ss IH]; simpl;
    [reflexivity|].
  now rewrite char_of_sextet_not_dot.
Qed.

Lemma utf8_decode_char (c : ascii) (b : list byte) :
  JSON.utf8_decode (Buffer.utf8_of_char c ++ b)
  = option_map (String c) (JSON.utf8_decode b).
Proof. destruct c as [[] [] [] [] [] [] [] []]; reflexivity. Qed.

Lemma utf8_decode_from (s : string) :
  JSON.utf8_decode (Buffer.from s) = Some s.
Proof.
  induction s as [|c s IH]; [reflexivity|].
  cbn [Buffer.from]. now rewrite utf8_decode_char, IH.
Qed.

Lemma parse_string_escape (c : ascii) (t : string) :
  JSON.parse_string (JSON.escape c ++ t)
  = JSON.prepend c (JSON.parse_string t).
Proof. destruct c as [[] [] [] [] [] [] [] []]; reflexivity. Qed.

Lemma parse_string_quote_body (s rest : string) :
  JSON.parse_string (JSON.quote_body s ++ String JSON.dquote rest)
  = Some (s, rest).
Proof.
  induction s as [|c s IH].
  - reflexivity.
  - cbn [JSON.quote_body]. rewrite append_assoc, parse_string_escape, IH.
    reflexivity.
Qed.

Lemma span_number_uint (d : Decimal.uint) (c : ascii) (rest : string) :
  JSON.is_number_char c = false ->
  JSON.span_number (NilEmpty.string_of_uint d ++ String c rest)
  = (NilEmpty.string_of_uint d, String c rest).
Proof.
  intros Hc. induction d; cbn [NilEmpty.string_of_uint String.append];
    try (cbn [JSON.span_number]; rewrite IHd; reflexivity).
  cbn [JSON.span_number]. now rewrite Hc.
Qed.

Lemma of_number_head (n : Z) :
  exists d ds, JsString.of_number n = String d ds
               /\ JSON.is_number_char d = true.
Proof.
  unfold JsString.of_number.
  assert (Hu : forall u, exists d ds,
             NilZero.string_of_uint u = String d ds
             /\ JSON.is_number_char d = true).
  { intros u. destruct u; cbn; eauto. }
  destruct (Z.to_int n) as [u|u]; cbn [NilZero.string_of_int].
  - apply Hu.
  - eauto.
Qed.

Lemma span_number_of_number (n : Z) (c : ascii) (rest : string) :
  JSON.is_number_char c = false ->
  JSON.span_number (JsString.of_number n ++ String c rest)
  = (JsString.of_number n, String c rest).
Proof.
  intros Hc. unfold JsString.of_number.
  assert (Hu : forall u,
             JSON.span_number (NilZero.string_of_uint u ++ String c rest)
             = (NilZero.string_of_uint u, String c rest)).
  { intros u. destruct u; try apply (span_number_uint _ c rest Hc).
    cbn. now rewrite Hc. }
  destruct (Z.to_int n) as [u|u]; cbn [NilZero.string_of_int].
  - apply Hu.
  - cbn [String.append JSON.span_number].
    replace (JSON.is_number_char "-") with true by reflexivity.
    now rewrite Hu.
Qed.

Lemma int_of_string_of_number (n : Z) :
  NilZero.int_of_string (JsString.of_number n) = Some (Z.to_int n).
Proof.
  unfold JsString.of_number. apply NilZero.isi.
  - destruct n; cbn; try discriminate.
    intros [= H]. now apply (Unsigned.to_uint_nonnil p).
  - destruct n; cbn; try discriminate.
    intros [= H]. now apply (Unsigned.to_uint_nonnil p).
Qed.

Lemma parse_number_of_number (n : Z) (c : ascii) (rest : string) :
  JSON.is_number_char c = false ->
  JSON.parse_number (JsString.of_number n ++ String c rest)
  = Some (n, String c rest).
Proof.
  intros Hc. unfold JSON.parse_number.
  rewrite (span_number_of_number n c rest Hc).
  rewrite int_of_string_of_number, DecimalZ.of_to.
  now rewrite String.eqb_refl.
Qed.

Lemma number_char_is_no_opener (d : ascii) :
  JSON.is_number_char d = true ->
  JSON.is_ws d = false
  /\ (d =? JSON.dquote)%char = false /\ (d =? "{")%char = false
  /\ (d =? "[")%char = false /\ (d =? "t")%char = false
  /\ (d =? "f")%char = false /\ (d =? "n")%char = false.
Proof.
  destruct d as [[] [] [] [] [] [] [] []]; intros H;
    first [ discriminate H | repeat split; reflexivity ].
Qed.

Lemma parse_value_number (fuel : nat) (n : Z) (c : ascii) (rest : string) :
  JSON.is_number_char c = false ->
  JSON.parse_value (S fuel) (JsString.of_number n ++ String c rest)
  = Some (JSON.Number n, String c rest).
Proof.
  intros Hc.
  pose proof (parse_number_of_number n c rest Hc) as Hnum.
  destruct (of_number_head n) as (d & ds & Hd & Hnc).
  rewrite Hd in *. cbn [String.append] in *.
  destruct (number_char_is_no_opener d Hnc)
    as (Hws & H1 & H2 & H3 & H4 & H5 & H6).
  cbn [JSON.parse_value JSON.skip_ws].
  rewrite Hws, H1, H2, H3, H4, H5, H6, Hnum. reflexivity.
Qed.

Lemma stringify_string_app (s rest : string) :
  (JSON.stringify_string s ++ rest)%string
  = String JSON.dquote (JSON.quote_body s ++ String JSON.dquote rest).
Proof.
  unfold JSON.stringify_string. cbn [String.append].
  now rewrite append_assoc.
Qed.

Lemma parse_value_string (fuel : nat) (s rest : string) :
  JSON.parse_value (S fuel) (JSON.stringify_string s ++ rest)
  = Some (JSON.Str s, rest).
Proof.
  rewrite stringify_string_app.
  cbn [JSON.parse_value].
  replace (JSON.skip_ws (String JSON.dquote _))
    with (String JSON.dquote (JSON.quote_body s ++ String JSON.dquote rest))
    by reflexivity.
  replace (JSON.dquote =? JSON.dquote)%char with true by reflexivity.
  now rewrite parse_string_quote_body.
Qed.

Lemma skip_ws_head (c : ascii) (s : string) :
  JSON.is_ws c = false -> JSON.skip_ws (String c s) = String c s.
Proof. intros H. cbn [JSON.skip_ws]. now rewrite H. Qed.

Lemma parse_members_key (fuel : nat) (k text : string) :
  (forall rest,
      JSON.parse_string (k ++ String JSON.dquote rest) = Some (k, rest)) ->
  JSON.parse_members (S fuel) (JSON.key k ++ text)
  = match JSON.parse_value fuel text with
    | Some (v, s4) =>
        match JSON.skip_ws s4 with
        | String "," s5 =>
            match JSON.parse_members fuel s5 with
            | Some (ms, r) => Some ((k, v) :: ms, r)
            | None => None
            end
        | String "}" r => Some ([(k, v)], r)
        | _ => None
        end
    | None => None
    end.
Proof.
  intros Hk. unfold JSON.key. cbn [String.append].
  rewrite append_assoc. cbn [String.append].
  cbn [JSON.parse_members].
  rewrite skip_ws_head by reflexivity.
  replace (JSON.dquote =? JSON.dquote)%char with true by reflexivity.
  rewrite Hk. rewrite skip_ws_head by reflexivity. reflexivity.
Qed.

Lemma parse_stringify_token (fuel : nat) (t : DonationToken) :
  JSON.parse_value (S (S (S (S (S (S fuel)))))) (JSON.stringify_token t)
  = Some (JSON.Object
            [ ("orderId", JSON.Str (orderId t));
              ("eventId", JSON.Str (eventId t));
              ("timestamp", JSON.Number (timestamp t));
              ("exp", JSON.Number (exp t)) ],
          EmptyString).
Proof.
  unfold JSON.stringify_token.
  set (members := (JSON.key "orderId" ++ _)%string).
  assert (Hm : JSON.parse_members (S (S (S (S (S fuel))))) members
               = Some ([ ("orderId", JSON.Str (orderId t));
                         ("eventId", JSON.Str (eventId t));
                         ("timestamp", JSON.Number (timestamp t));
                         ("exp", JSON.Number (exp t)) ], EmptyString)).
  { unfold members.
    rewrite parse_members_key by (intros rest; reflexivity).
    rewrite parse_value_string.
    cbn [String.append]. rewrite skip_ws_head by reflexivity. cbv iota beta.
    rewrite parse_members_key by (intros rest; reflexivity).
    rewrite parse_value_string.
    cbn [String.append]. rewrite skip_ws_head by reflexivity. cbv iota beta.
    rewrite parse_members_key by (intros rest; reflexivity).
    rewrite parse_value_number by reflexivity.
    rewrite skip_ws_head by reflexivity. cbv iota beta.
    rewrite parse_members_key by (intros rest; reflexivity).
    rewrite parse_value_number by reflexivity.
    rewrite skip_ws_head by reflexivity. cbv iota beta.
    reflexivity. }
  cbn [String.append JSON.parse_value].
  rewrite skip_ws_head by reflexivity.
  replace ("{" =? JSON.dquote)%char with false by reflexivity.
  replace ("{" =? "{")%char with true by reflexivity.
  fold members.
  assert (Hhead : exists x, members = String JSON.dquote x).
  { unfold members, JSON.key. cbn [String.append]. eauto. }
  destruct Hhead as [x Hx]. rewrite Hx at 1.
  rewrite skip_ws_head by reflexivity.
  replace (match String JSON.dquote x with
           | String "}" r => Some (JSON.Object [], r)
           | _ => match JSON.parse_members (S (S (S (S (S fuel))))) members with
                  | Some (ms, r) => Some (JSON.Object ms, r)
                  | None => None
                  end
           end)
    with (match JSON.parse_members (S (S (S (S (S fuel))))) members with
          | Some (ms, r) => Some (JSON.Object ms, r)
          | None => None
          end) by reflexivity.
  now rewrite Hm.
Qed.

Lemma node_JSON_roundtrip : @JSON_roundtrip_law node.
Proof.
  intros t. cbn [JSON_parse_token JSON_stringify node].
  unfold JSON.parse_as. rewrite utf8_decode_from.
  unfold JSON.parse.
  assert (Hlen : exists fuel,
             S (String.length (JSON.stringify_token t))
             = S (S (S (S (S (S fuel)))))).
  { unfold JSON.stringify_token, JSON.key. cbn [String.append String.length].
    eauto. }
  destruct Hlen as [fuel ->].
  rewrite parse_stringify_token. cbn [JSON.skip_ws].
  destruct t as [o e ts x]. reflexivity.
Qed.

(* ================================================================== *)
(** * [SignatureValidator]: properties *)
(* ================================================================== *)

Section SignatureProperties.

Context {runtime : NodeRuntime}.

Hypothesis digest_length : hmac_length_law.

Variable secret : string.

(** When the header, its prefix removed and trimmed, starts with the digest of
    [signed] in hexadecimal and goes on with something that does not decode,
    the verification of [payload] compares the two digests. *)
Lemma validateSignature_compares (signed payload : list byte) (h rest : string) :
  h <> EmptyString ->
  JsString.trim (JsString.replace_prefix_i "sha256=" h)
  = (Buffer.toString_hex (hmac_sha256 (Buffer.from secret) signed) ++ rest)%string ->
  Buffer.from_hex rest = [] ->
  validateSignature secret payload (Some h)
  = Buffer.eqb (hmac_sha256 (Buffer.from secret) signed)
               (hmac_sha256 (Buffer.from secret) payload).
Proof.
  intros Hne Htrim Hrest.
  destruct h as [|c h]; [congruence|].
  unfold validateSignature. cbv zeta.
  rewrite Htrim, from_hex_toString_hex_app, Hrest, app_nil_r.
  rewrite from_hex_toString_hex.
  unfold timingSafeEqual.
  rewrite !digest_length. reflexivity.
Qed.

Lemma digest_hex_not_empty (payload : list byte) (s : string) :
  (Buffer.toString_hex (hmac_sha256 (Buffer.from secret) payload) ++ s)%string
  <> EmptyString.
Proof.
  pose proof (digest_length (Buffer.from secret) payload) as Hlen.
  destruct (hmac_sha256 (Buffer.from secret) payload); [discriminate|].
  discriminate.
Qed.

(** The header forms that verify: the digest in hexadecimal between two runs
    of white space, with or without [sha256=] (in any case) before them. *)
Lemma header_is_trimmed (payload : list byte) (prefix ws1 ws2 : string) :
  prefix = EmptyString \/ eq_ignore_case prefix "sha256=" = true ->
  JsString.all_whitespace ws1 = true ->
  JsString.all_whitespace ws2 = true ->
  let hex := Buffer.toString_hex (hmac_sha256 (Buffer.from secret) payload) in
  let h := (prefix ++ ws1 ++ hex ++ ws2)%string in
  h <> EmptyString
  /\ JsString.trim (JsString.replace_prefix_i "sha256=" h) = hex.
Proof.
  intros Hprefix H1 H2 hex h. split.
  - unfold h. destruct prefix as [|p prefix]; [|discriminate].
    destruct ws1 as [|w ws1]; [|discriminate].
    apply digest_hex_not_empty.
  - assert (Hstrip :
        JsString.replace_prefix_i "sha256=" h = (ws1 ++ hex ++ ws2)%string
        \/ JsString.replace_prefix_i "sha256=" h = h /\ prefix = EmptyString).
    { destruct Hprefix as [-> | Hci].
      - right. split; [|reflexivity].
        unfold JsString.replace_prefix_i, h. cbn [String.append].
        destruct ws1 as [|w ws1].
        + cbn [String.append]. unfold hex.
          pose proof (digest_length (Buffer.from secret) payload) as Hlen.
          destruct (hmac_sha256 (Buffer.from secret) payload) as [|x d];
            [discriminate|].
          cbn [Buffer.toString_hex String.append].
          now rewrite no_prefix_on_hex.
        + cbn [String.append]. simpl in H1.
          apply andb_true_iff in H1 as [Hw _].
          now rewrite (no_prefix_on_whitespace w _ Hw).
      - left. unfold JsString.replace_prefix_i, h.
        now rewrite (match_prefix_i_app "sha256=" prefix _ Hci). }
    destruct Hstrip as [-> | [-> ->]].
    + apply trim_around_hex; auto. apply all_hex_toString_hex.
    + unfold h. cbn [String.append].
      apply trim_around_hex; auto. apply all_hex_toString_hex.
Qed.

End SignatureProperties.

(** C1 (as amended).  For every secret and payload, [validateSignature]
    accepts the header made of the hexadecimal HMAC-SHA256 of the payload
    between two runs of white space, with or without a [sha256=] prefix (in
    any case) at the very start of the header; and with that header it rejects
    every payload whose HMAC differs from the signed one, which a payload
    changed in one byte does unless the two collide under HMAC-SHA256. *)
Theorem validateSignature_accepts_own_digest
  {runtime : NodeRuntime} (digest_length : hmac_length_law)
  (secret : string) (payload : list byte) (prefix ws1 ws2 : string) :
  prefix = EmptyString \/ eq_ignore_case prefix "sha256=" = true ->
  JsString.all_whitespace ws1 = true ->
  JsString.all_whitespace ws2 = true ->
  let key := Buffer.from secret in
  let h := (prefix ++ ws1 ++ Buffer.toString_hex (hmac_sha256 key payload)
            ++ ws2)%string in
  validateSignature secret payload (Some h) = true
  /\ forall payload',
       hmac_sha256 key payload' <> hmac_sha256 key payload ->
       validateSignature secret payload' (Some h) = false.
Proof.
  intros Hprefix H1 H2 key h.
  destruct (header_is_trimmed digest_length secret payload prefix ws1 ws2
              Hprefix H1 H2) as [Hne Htrim].
  fold key in Htrim. fold h in Hne, Htrim.
  rewrite <- (append_empty_r (Buffer.toString_hex _)) in Htrim.
  split.
  - rewrite (validateSignature_compares digest_length secret payload payload
               h EmptyString Hne Htrim eq_refl).
    apply Buffer_eqb_refl.
  - intros payload' Hdiff.
    rewrite (validateSignature_compares digest_length secret payload payload'
               h EmptyString Hne Htrim eq_refl).
    destruct (Buffer.eqb _ _) eqn:E; [|reflexivity].
    apply Buffer_eqb_eq in E. now elim Hdiff.
Qed.

(** C1, an instance: the secret [s], the payload [{a:1}] as bytes, the header
    [SHA256=], a blank, the digest, a line feed; and the same payload with its
    digit changed. *)
Lemma validateSignature_accepts_own_digest_witness :
  let payload := Buffer.from "{a:1}" in
  let payload' := Buffer.from "{a:2}" in
  let h := ("SHA256=" ++ " "
            ++ Buffer.toString_hex
                 (@hmac_sha256 node (Buffer.from "s") payload)
            ++ String (ascii_of_N 10) EmptyString)%string in
  @validateSignature node "s" payload (Some h) = true
  /\ @validateSignature node "s" payload' (Some h) = false.
Proof.
  intros payload payload' h.
  destruct (@validateSignature_accepts_own_digest node node_hmac_length
              "s" payload "SHA256=" " " (String (ascii_of_N 10) EmptyString)
              (or_intror eq_refl) eq_refl eq_refl) as [Hok Hno].
  split.
  - exact Hok.
  - apply Hno. vm_compute. discriminate.
Defined.

(** C1, as first stated, fails: white space before the prefix keeps the
    prefix from being removed, and the header does not verify. *)
Lemma validateSignature_rejects_space_before_prefix :
  let payload := Buffer.from "{a:1}" in
  let h := (" sha256="
            ++ Buffer.toString_hex
                 (@hmac_sha256 node (Buffer.from "s") payload)
            ++ " ")%string in
  @validateSignature node "s" payload (Some h) = false.
Proof. vm_compute. reflexivity. Qed.

(** C10.  For every secret and payload, a header made of the 64 hexadecimal
    digits of the digest followed by a character that is not a hexadecimal
    digit, and by anything after it, verifies, although the header is not
    the hexadecimal form of any digest: the decoding of the received value
    stops at the first pair that is not two digits and keeps what it read. *)
Theorem validateSignature_accepts_trailing_garbage
  {runtime : NodeRuntime} (digest_length : hmac_length_law)
  (secret : string) (payload : list byte) (c : ascii) (junk : string) :
  Buffer.is_hex_digit c = false ->
  let hex :=
    Buffer.toString_hex (hmac_sha256 (Buffer.from secret) payload) in
  let h := (hex ++ String c junk)%string in
  String.length hex = 64%nat
  /\ all_hex h = false
  /\ validateSignature secret payload (Some h) = true.
Proof.
  intros Hc hex h. split; [|split].
  - unfold hex. now rewrite length_toString_hex, digest_length.
  - unfold h. rewrite all_hex_app. cbn [all_hex]. rewrite Hc.
    cbn [andb]. apply andb_false_r.
  - assert (Hhex : all_hex hex = true) by apply all_hex_toString_hex.
    assert (Hne : hex <> EmptyString).
    { unfold hex. rewrite <- (append_empty_r (Buffer.toString_hex _)).
      now apply digest_hex_not_empty. }
    assert (Hh : h <> EmptyString).
    { unfold h. destruct hex; [congruence | discriminate]. }
    assert (Hstrip : JsString.replace_prefix_i "sha256=" h = h).
    { unfold JsString.replace_prefix_i, h, hex.
      pose proof (digest_length (Buffer.from secret) payload) as Hlen.
      destruct (hmac_sha256 (Buffer.from secret) payload) as [|x d];
        [discriminate|].
      cbn [Buffer.toString_hex String.append].
      now rewrite no_prefix_on_hex. }
    assert (Htrim : JsString.trim (JsString.replace_prefix_i "sha256=" h)
                    = (hex ++ JsString.trimEnd (String c junk))%string).
    { rewrite Hstrip. unfold JsString.trim, h.
      rewrite trimStart_hex by assumption.
      now apply trimEnd_hex_app. }
    rewrite (validateSignature_compares digest_length secret payload payload
               h (JsString.trimEnd (String c junk)) Hh Htrim).
    + apply Buffer_eqb_refl.
    + destruct (trimEnd_head c junk) as [-> | [t ->]]; [reflexivity|].
      now apply from_hex_not_hex.
Qed.

(** C10, an instance: the digest followed by [zz]. *)
Lemma validateSignature_accepts_trailing_garbage_witness :
  let payload := Buffer.from "{a:1}" in
  let hex :=
    Buffer.toString_hex (@hmac_sha256 node (Buffer.from "s") payload) in
  String.length hex = 64%nat
  /\ all_hex (hex ++ "zz") = false
  /\ @validateSignature node "s" payload (Some (hex ++ "zz")%string) = true.
Proof.
  exact (@validateSignature_accepts_trailing_garbage node node_hmac_length
           "s" (Buffer.from "{a:1}") "z"%char "z" eq_refl).
Defined.

(* ================================================================== *)
(** * [TokenGenerator]: properties *)
(* ================================================================== *)

Lemma split_no_separator (sep : ascii) (s : string) :
  JsString.count sep s = 0%nat -> JsString.split sep s = [s].
Proof.
  induction s as [|c s IH]; simpl; [reflexivity|].
  destruct (c =? sep)%char; [discriminate|].
  intros H. now rewrite IH.
Qed.

Lemma split_at_separator (sep : ascii) (a b : string) :
  JsString.count sep a = 0%nat ->
  JsString.split sep (a ++ String sep b) = a :: JsString.split sep b.
Proof.
  induction a as [|c a IH]; simpl.
  - intros _. now rewrite Ascii.eqb_refl.
  - destruct (c =? sep)%char; [discriminate|].
    intros H. now rewrite IH.
Qed.

Section TokenProperties.

Context {runtime : NodeRuntime}.

Variable secret : string.

(** A token without a dot has no signature segment: [Buffer.from(undefined)]
    throws, and the token is rejected without a reading of the clock. *)
Lemma validateToken_no_separator (token : string) (w : World) :
  JsString.count "." token = 0%nat ->
  validateToken secret token w = (Return None, w).
Proof.
  intros H. unfold validateToken, try_catch, bind, lift.
  rewrite (split_no_separator "." token H). reflexivity.
Qed.

(** Only the first two segments of a token are read. *)
Lemma validateToken_two_segments (p s extra : string) (w : World) :
  JsString.count "." p = 0%nat ->
  JsString.count "." s = 0%nat ->
  validateToken secret (p ++ "." ++ s ++ "." ++ extra) w
  = validateToken secret (p ++ "." ++ s) w.
Proof.
  intros Hp Hs. unfold validateToken.
  cbn [String.append].
  rewrite !(split_at_separator "." p) by assumption.
  rewrite (split_at_separator "." s) by assumption.
  rewrite (split_no_separator "." s) by assumption.
  reflexivity.
Qed.

Hypothesis base64url_roundtrip : base64url_roundtrip_law.
Hypothesis base64url_alphabet : base64url_alphabet_law.
Hypothesis JSON_roundtrip : JSON_roundtrip_law.

Lemma generateDonationToken_wire (o e : string) (w : World) :
  generateDonationToken secret o e w
  = (Return (wire secret {| orderId := o; eventId := e;
                            timestamp := clock w 0;
                            exp := clock w 1 + DAY |}),
     after_readings 2 w).
Proof. reflexivity. Qed.

(** A token in wire form passes the signature check and decodes to its
    payload; what is left is the comparison with the clock. *)
Lemma validateToken_wire (payload : DonationToken) (w : World) :
  validateToken secret (wire secret payload) w
  = (Return (if (clock w 0 >? exp payload)%Z then None else Some payload),
     after_readings 1 w).
Proof.
  unfold validateToken, wire, signPayload. cbn [String.append].
  rewrite (split_at_separator "." _ _ (base64url_alphabet _)).
  rewrite (split_no_separator "." _ (base64url_alphabet _)).
  cbn [hd nth_error Buffer_from_value].
  unfold try_catch, bind, lift.
  rewrite timingSafeEqual_same. cbn [negb].
  rewrite base64url_roundtrip, JSON_roundtrip.
  unfold Date_now, ret. cbn [clock].
  destruct (clock w 0 >? exp payload)%Z; reflexivity.
Qed.

End TokenProperties.

(** C6.  For every order and event identifier, the token that
    [generateDonationToken] issues validates, at any later reading [now] of
    the clock that is not past [issued + 24h], to a payload that carries the
    two identifiers; it is rejected 24h and any positive [eps] after
    [issued], and accepted 24h less any positive [eps] after it.  [issued]
    is the reading of the clock from which the token's expiration is
    computed. *)
Theorem validateToken_generateDonationToken
  {runtime : NodeRuntime}
  (base64url_roundtrip : base64url_roundtrip_law)
  (base64url_alphabet : base64url_alphabet_law)
  (JSON_roundtrip : JSON_roundtrip_law)
  (secret o e : string) (w : World) :
  let issued := clock w 1 in
  exists token w1,
    generateDonationToken secret o e w = (Return token, w1)
    /\ forall w2 : World,
         let now := clock w2 0 in
         let accepted :=
           exists payload,
             fst (validateToken secret token w2) = Return (Some payload)
             /\ orderId payload = o /\ eventId payload = e
             /\ exp payload = (issued + DAY)%Z in
         let rejected := fst (validateToken secret token w2) = Return None in
         ((now <= issued + DAY)%Z -> accepted)
         /\ (forall eps, (0 < eps)%Z -> now = (issued + DAY + eps)%Z -> rejected)
         /\ (forall eps, (0 < eps)%Z -> now = (issued + DAY - eps)%Z -> accepted).
Proof.
  intros issued. eexists. eexists. split.
  - apply (generateDonationToken_wire secret o e w).
  - intros w2 now accepted rejected.
    assert (Hacc : (now <= issued + DAY)%Z -> accepted).
    { intros Hle. eexists.
      rewrite (validateToken_wire secret base64url_roundtrip
                 base64url_alphabet JSON_roundtrip).
      cbn [fst exp]. fold issued now.
      destruct (Z.gtb_spec now (issued + DAY)) as [Hgt | _]; [lia|].
      repeat split. }
    split; [exact Hacc | split].
    + intros eps Heps Hnow. unfold rejected.
      rewrite (validateToken_wire secret base64url_roundtrip
                 base64url_alphabet JSON_roundtrip).
      cbn [fst exp]. fold issued now.
      destruct (Z.gtb_spec now (issued + DAY)) as [_ | Hle];
        [reflexivity | lia].
    + intros eps Heps Hnow. apply Hacc. lia.
Qed.

(** C6, an instance: a token issued at 1234567890000 for [order-123] and
    [event-456] is accepted one millisecond before its 24 hours are over
    and rejected one millisecond after. *)
Lemma validateToken_generateDonationToken_witness :
  exists token,
    fst (@generateDonationToken node "test-secret-key" "order-123" "event-456"
           (world_at 1234567890000 false)) = Return token
    /\ (exists payload,
          fst (@validateToken node "test-secret-key" token
                 (world_at (1234567890000 + DAY - 1) false))
          = Return (Some payload)
          /\ orderId payload = "order-123" /\ eventId payload = "event-456"
          /\ exp payload = (1234567890000 + DAY)%Z)
    /\ fst (@validateToken node "test-secret-key" token
              (world_at (1234567890000 + DAY + 1) false))
       = Return None.
Proof.
  destruct (@validateToken_generateDonationToken node
              node_base64url_roundtrip node_base64url_alphabet
              node_JSON_roundtrip
              "test-secret-key" "order-123" "event-456"
              (world_at 1234567890000 false))
    as (token & w1 & Hgen & Hval).
  exists token. split; [now rewrite Hgen|]. split.
  - destruct (Hval (world_at (1234567890000 + DAY - 1) false))
      as (_ & _ & Hacc).
    apply (Hacc 1%Z); reflexivity.
  - destruct (Hval (world_at (1234567890000 + DAY + 1) false))
      as (_ & Hrej & _).
    apply (Hrej 1%Z); reflexivity.
Defined.

(** C7 (as amended).  [validateToken] rejects every token that has no dot,
    and leaves the world as it was; of a token with two dots or more it reads
    the first two segments only, so that the token fares as those two
    segments joined by a dot do. *)
Theorem validateToken_separators
  {runtime : NodeRuntime} (secret : string) :
  (forall token w,
      JsString.count "." token = 0%nat ->
      validateToken secret token w = (Return None, w))
  /\ (forall p s extra w,
         JsString.count "." p = 0%nat ->
         JsString.count "." s = 0%nat ->
         validateToken secret (p ++ "." ++ s ++ "." ++ extra) w
         = validateToken secret (p ++ "." ++ s) w).
Proof.
  split.
  - intros token w. apply validateToken_no_separator.
  - intros p s extra w. apply validateToken_two_segments.
Qed.

(** C7, an instance: a token without a dot, and one with three segments. *)
Lemma validateToken_separators_witness :
  fst (@validateToken node "test-secret-key" "invalid-token"
         (world_at 0 false)) = Return None
  /\ @validateToken node "test-secret-key" "not.a.token" (world_at 0 false)
     = @validateToken node "test-secret-key" "not.a" (world_at 0 false).
Proof.
  destruct (@validateToken_separators node "test-secret-key") as [H0 H2].
  split.
  - now rewrite (H0 "invalid-token" (world_at 0 false) eq_refl).
  - exact (H2 "not" "a" "token" (world_at 0 false) eq_refl eq_refl).
Defined.

(** C7, as first stated, fails: the token issued at 1234567890000 for
    [order-123] and [event-456], with a dot and an [x] added at its end, has
    two dots and is accepted. *)
Lemma validateToken_accepts_third_segment :
  let token :=
    ("eyJvcmRlcklkIjoib3JkZXItMTIzIiwiZXZlbnRJZCI6ImV2ZW50LTQ1NiIsInRpbWVzdGFtcCI6MTIzNDU2Nzg5MDAwMCwiZXhwIjoxMjM0NjU0MjkwMDAwfQ"
     ++ ".yFHSTqu5NtCKQ9Lz9vFML9qxb2bnqXhLF4obVlMWgqA" ++ ".x")%string in
  JsString.count "." token = 2%nat
  /\ fst (@validateToken node "test-secret-key" token
            (world_at 1234567890000 false))
     = Return (Some {| orderId := "order-123"; eventId := "event-456";
                       timestamp := 1234567890000;
                       exp := 1234654290000 |}).
Proof. vm_compute. split; reflexivity. Qed.

(* ================================================================== *)
(** * The map of attempts: lemmas *)
(* ================================================================== *)

Section JsMapFacts.

Context {V : Type}.

Implicit Types (k : string) (v : V) (m : JsMap.t V).

Lemma get_set_same k v m : JsMap.get k (JsMap.set k v m) = Some v.
Proof.
  induction m as [|[k' v'] m IH]; simpl.
  - now rewrite String.eqb_refl.
  - destruct (k' =? k)%string eqn:E; simpl; now rewrite E.
Qed.

Lemma get_set_other k k' v m :
  k <> k' -> JsMap.get k' (JsMap.set k v m) = JsMap.get k' m.
Proof.
  intros Hne. induction m as [|[k0 v0] m IH]; simpl.
  - destruct (String.eqb_spec k k'); [contradiction | reflexivity].
  - destruct (String.eqb_spec k0 k) as [-> | Hk].
    + simpl. destruct (String.eqb_spec k k'); [contradiction | reflexivity].
    + simpl. now rewrite IH.
Qed.

Lemma set_set k v1 v2 m :
  JsMap.set k v2 (JsMap.set k v1 m) = JsMap.set k v2 m.
Proof.
  induction m as [|[k' v'] m IH]; simpl.
  - now rewrite String.eqb_refl.
  - destruct (k' =? k)%string eqn:E; simpl; rewrite E; [reflexivity|].
    now rewrite IH.
Qed.

Lemma count_key_absent k m :
  JsMap.get k m = None -> JsMap.count_key k m = 0%nat.
Proof.
  induction m as [|[k' v'] m IH]; simpl; [reflexivity|].
  destruct (k' =? k)%string; [discriminate | exact IH].
Qed.

Lemma count_key_set_fresh k v m :
  JsMap.get k m = None -> JsMap.count_key k (JsMap.set k v m) = 1%nat.
Proof.
  induction m as [|[k' v'] m IH]; simpl.
  - now rewrite String.eqb_refl.
  - destruct (k' =? k)%string eqn:E; [discriminate|].
    intros H. simpl. rewrite E. now apply IH.
Qed.

Lemma count_key_set_present k v m :
  JsMap.get k m <> None ->
  JsMap.count_key k (JsMap.set k v m) = JsMap.count_key k m.
Proof.
  induction m as [|[k' v'] m IH]; simpl; [congruence|].
  destruct (k' =? k)%string eqn:E; simpl; rewrite E; [reflexivity|].
  intros H. now rewrite IH.
Qed.

Lemma count_key_set_other k k' v m :
  k <> k' ->
  JsMap.count_key k' (JsMap.set k v m) = JsMap.count_key k' m.
Proof.
  intros Hne. induction m as [|[k0 v0] m IH]; simpl.
  - destruct (String.eqb_spec k k'); [contradiction | reflexivity].
  - destruct (String.eqb_spec k0 k) as [-> | Hk]; simpl; [reflexivity|].
    now rewrite IH.
Qed.

(** [set] keeps every key at most once. *)
Lemma count_key_set_le k k' v m :
  (JsMap.count_key k' m <= 1)%nat ->
  (JsMap.count_key k' (JsMap.set k v m) <= 1)%nat.
Proof.
  intros H. destruct (String.eqb_spec k k') as [-> | Hne].
  - destruct (JsMap.get k' m) eqn:E.
    + rewrite count_key_set_present by congruence. exact H.
    + rewrite count_key_set_fresh by assumption. lia.
  - now rewrite count_key_set_other.
Qed.

Lemma length_set_present k v m :
  JsMap.get k m <> None ->
  List.length (JsMap.set k v m) = List.length m.
Proof.
  induction m as [|[k' v'] m IH]; simpl; [congruence|].
  destruct (k' =? k)%string; simpl; [reflexivity|].
  intros H. now rewrite IH.
Qed.

End JsMapFacts.

(* ================================================================== *)
(** * [WebhookHandler]: what each handler does to the world *)
(* ================================================================== *)

Section HandlerFacts.

Context {runtime : NodeRuntime}.

Variable secret : string.

Lemma handleOrderApproved_spec (d : SymplaOrderData) (w : World) :
  exists a w',
    handleOrderApproved secret d w = (Return tt, w')
    /\ donationAttempts w'
       = JsMap.set (order_identifier d) a (donationAttempts w)
    /\ sympla_order_id a = order_identifier d
    /\ sympla_event_id a = event_id d
    /\ status a = (if gateway_succeeds w d then COMPLETED else DECLINED)
    /\ gateway w' = later (gateway w).
Proof.
  unfold gateway_succeeds, handleOrderApproved, createDonationWithConsent,
    generateDonationToken, try_catch, bind, uuidv4, Date_now, ret,
    donationAttempts_set, createDonation.
  cbn [donationAttempts clock uuids gateway].
  fold (donationRequest_of d).
  destruct (gateway w 0 (donationRequest_of d)) as [response|];
    eexists; eexists; (split; [reflexivity|]);
    cbn [donationAttempts gateway]; rewrite set_set;
    repeat split.
Qed.

Lemma handleOrderCancelled_spec (d : SymplaOrderData) (w : World) :
  exists a w',
    handleOrderCancelled d w = (Return tt, w')
    /\ donationAttempts w'
       = JsMap.set (order_identifier d) a (donationAttempts w)
    /\ status a = CANCELLED.
Proof.
  unfold handleOrderCancelled, bind, donationAttempts_get, uuidv4, Date_now,
    donationAttempts_set.
  destruct (JsMap.get (order_identifier d) (donationAttempts w)) as [a0|];
    eexists; eexists; (split; [reflexivity|]); repeat split.
Qed.

Lemma handleOrderRefunded_spec (d : SymplaOrderData) (w : World) :
  exists a w',
    handleOrderRefunded d w = (Return tt, w')
    /\ donationAttempts w'
       = JsMap.set (order_identifier d) a (donationAttempts w)
    /\ status a = REFUNDED.
Proof.
  unfold handleOrderRefunded, bind, donationAttempts_get, uuidv4, Date_now,
    donationAttempts_set.
  destruct (JsMap.get (order_identifier d) (donationAttempts w)) as [a0|];
    eexists; eexists; (split; [reflexivity|]); repeat split.
Qed.

(** [dispatch] never throws.  It leaves the map as it was, on an event kind
    that changes no status, or sets the entry of the event's order to an
    attempt whose status the kind decides. *)
Lemma dispatch_spec (payload : SymplaWebhookPayload) (w : World) :
  let k := order_identifier (data payload) in
  let next := transition (event payload) (gateway_succeeds w (data payload)) in
  exists w',
    dispatch secret payload w = (Return tt, w')
    /\ (donationAttempts w' = donationAttempts w /\ (forall s, next s = s)
        \/ exists a,
             donationAttempts w' = JsMap.set k a (donationAttempts w)
             /\ (forall s, status a = next s)).
Proof.
  intros k next. unfold next, dispatch, transition.
  destruct (event payload =? "order.approved")%string.
  { destruct (handleOrderApproved_spec (data payload) w)
      as (a & w' & Hrun & Hmap & _ & _ & Hst & _).
    exists w'. split; [exact Hrun|]. right. exists a. now split. }
  destruct (event payload =? "order.cancelled")%string.
  { destruct (handleOrderCancelled_spec (data payload) w)
      as (a & w' & Hrun & Hmap & Hst).
    exists w'. split; [exact Hrun|]. right. exists a. now split. }
  destruct (event payload =? "order.refunded")%string.
  { destruct (handleOrderRefunded_spec (data payload) w)
      as (a & w' & Hrun & Hmap & Hst).
    exists w'. split; [exact Hrun|]. right. exists a. now split. }
  exists w. split.
  - now destruct (event payload =? "order.created")%string.
  - left. now split.
Qed.

Lemma dispatch_keeps_keys_once (payload : SymplaWebhookPayload) (w : World) :
  (forall k, (JsMap.count_key k (donationAttempts w) <= 1)%nat) ->
  forall k,
    (JsMap.count_key k (donationAttempts (snd (dispatch secret payload w)))
     <= 1)%nat.
Proof.
  intros Hinv k.
  destruct (dispatch_spec payload w) as (w' & Hrun & [[Hmap _] | [a [Hmap _]]]);
    rewrite Hrun; cbn [snd]; rewrite Hmap.
  - apply Hinv.
  - apply count_key_set_le, Hinv.
Qed.

(** What [processWebhook] answers, by the outcome of the verification and of
    the parsing. *)
Lemma processWebhook_unauthorized (req : Request) (w : World) :
  validateSignature secret (body req) (headers req "x-sympla-signature")
  = false ->
  processWebhook secret req w
  = (Return {| statusCode := 401;
               json := InvalidSignature "Invalid signature"
                         (headers req "x-sympla-signature")
                         (headers req "origin") |}, w).
Proof.
  intros H. unfold processWebhook, try_catch. now rewrite H.
Qed.

Lemma processWebhook_malformed (req : Request) (w : World) :
  validateSignature secret (body req) (headers req "x-sympla-signature")
  = true ->
  JSON_parse_payload (body req) = None ->
  processWebhook secret req w
  = (Return {| statusCode := 500;
               json := InternalError "Internal server error" |}, w).
Proof.
  intros H Hp. unfold processWebhook, try_catch, bind, lift.
  now rewrite H, Hp.
Qed.

Lemma processWebhook_dispatches (req : Request) (w : World)
  (payload : SymplaWebhookPayload) :
  validateSignature secret (body req) (headers req "x-sympla-signature")
  = true ->
  JSON_parse_payload (body req) = Some payload ->
  let w' := snd (dispatch secret payload w) in
  processWebhook secret req w
  = (Return {| statusCode := 200;
               json := Acknowledgment "success"
                         "Webhook processado com sucesso" (clock w' 0) |},
     after_readings 1 w').
Proof.
  intros H Hp w'. unfold processWebhook, try_catch, bind, lift.
  rewrite H, Hp. cbn [negb]. unfold w'.
  destruct (dispatch_spec payload w) as (w1 & Hrun & _).
  rewrite Hrun. reflexivity.
Qed.

Lemma processWebhook_keeps_keys_once (req : Request) (w : World) :
  (forall k, (JsMap.count_key k (donationAttempts w) <= 1)%nat) ->
  forall k,
    (JsMap.count_key k (donationAttempts (snd (processWebhook secret req w)))
     <= 1)%nat.
Proof.
  intros Hinv k.
  destruct (validateSignature secret (body req)
              (headers req "x-sympla-signature")) eqn:Hsig.
  - destruct (JSON_parse_payload (body req)) as [payload|] eqn:Hp.
    + rewrite (processWebhook_dispatches req w payload Hsig Hp).
      cbn [snd after_readings donationAttempts].
      now apply dispatch_keeps_keys_once.
    + rewrite (processWebhook_malformed req w Hsig Hp). apply Hinv.
  - rewrite (processWebhook_unauthorized req w Hsig). apply Hinv.
Qed.

End HandlerFacts.

(* ================================================================== *)
(** * [WebhookHandler]: properties *)
(* ================================================================== *)

(** C2.  Whatever the body and the signature header, when the verification
    of the signature fails [processWebhook] answers 401 and leaves the world,
    and with it the map of attempts, exactly as it was. *)
Theorem processWebhook_rejects_bad_signature
  {runtime : NodeRuntime} (secret : string) (req : Request) (w : World) :
  validateSignature secret (body req) (headers req "x-sympla-signature")
  = false ->
  exists response,
    processWebhook secret req w = (Return response, w)
    /\ statusCode response = 401%Z
    /\ json response
       = InvalidSignature "Invalid signature"
           (headers req "x-sympla-signature") (headers req "origin").
Proof.
  intros H. eexists. split.
  - apply (processWebhook_unauthorized secret req w H).
  - split; reflexivity.
Qed.

(** C2, an instance: the body of an approved order, signed with another
    secret than the handler's, is answered 401 and the map, empty before, is
    empty after. *)
Lemma processWebhook_rejects_bad_signature_witness :
  let b := Buffer.from (JSON.stringify_payload (an_event "order.approved")) in
  let req := request_with (Some (@sign node "another secret" b)) b in
  exists response w',
    @processWebhook node "s" req (world_at 0 true) = (Return response, w')
    /\ statusCode response = 401%Z
    /\ donationAttempts w' = JsMap.empty.
Proof.
  intros b req.
  destruct (@processWebhook_rejects_bad_signature node "s" req
              (world_at 0 true))
    as (response & Hrun & Hcode & _).
  - vm_compute. reflexivity.
  - exists response, (world_at 0 true).
    split; [exact Hrun | split; [exact Hcode | reflexivity]].
Defined.

(** C3.  When an [order.approved] event is dispatched for an order that has
    no entry in the map, the map has afterwards exactly one entry under that
    order, an attempt for that order whose status is [COMPLETED] if the call
    of the gateway succeeded and [DECLINED] if it failed; the gateway was
    called once. *)
Theorem approved_order_is_completed_or_declined
  {runtime : NodeRuntime} (secret : string)
  (payload : SymplaWebhookPayload) (w : World) :
  let k := order_identifier (data payload) in
  event payload = "order.approved" ->
  JsMap.get k (donationAttempts w) = None ->
  exists a w',
    dispatch secret payload w = (Return tt, w')
    /\ JsMap.count_key k (donationAttempts w') = 1%nat
    /\ JsMap.get k (donationAttempts w') = Some a
    /\ sympla_order_id a = k
    /\ status a
       = (if gateway_succeeds w (data payload) then COMPLETED else DECLINED)
    /\ gateway w' = later (gateway w).
Proof.
  intros k Hev Hfresh.
  destruct (handleOrderApproved_spec secret (data payload) w)
    as (a & w' & Hrun & Hmap & Hid & _ & Hst & Hgw).
  exists a, w'. unfold dispatch. rewrite Hev. cbn [String.eqb Ascii.eqb Bool.eqb].
  split; [exact Hrun|]. rewrite Hmap. fold k.
  split; [now apply count_key_set_fresh|].
  split; [apply get_set_same|]. auto.
Qed.

(** C3, an instance: the order [order-123], the gateway up, and down. *)
Lemma approved_order_is_completed_or_declined_witness :
  status_of "order-123"
    (snd (@dispatch node "s" (an_event "order.approved") (world_at 0 true)))
  = Some COMPLETED
  /\ status_of "order-123"
       (snd (@dispatch node "s" (an_event "order.approved") (world_at 0 false)))
     = Some DECLINED.
Proof.
  split.
  - destruct (@approved_order_is_completed_or_declined node "s"
                (an_event "order.approved") (world_at 0 true) eq_refl eq_refl)
      as (a & w' & Hrun & _ & Hget & _ & Hst & _).
    rewrite Hrun. unfold status_of. cbn [snd]. cbn in Hget. rewrite Hget.
    cbn [option_map]. now rewrite Hst.
  - destruct (@approved_order_is_completed_or_declined node "s"
                (an_event "order.approved") (world_at 0 false) eq_refl eq_refl)
      as (a & w' & Hrun & _ & Hget & _ & Hst & _).
    rewrite Hrun. unfold status_of. cbn [snd]. cbn in Hget. rewrite Hget.
    cbn [option_map]. now rewrite Hst.
Defined.

(** C4.  Whenever the signature verifies and the body parses to a payload,
    [processWebhook] answers 200 with the success acknowledgment, whatever
    the event and whether or not the call of the gateway succeeds; when the
    event is [order.approved] and the call of the gateway fails, the failure
    is on the attempt, stored as [DECLINED], and nothing is thrown. *)
Theorem processWebhook_acknowledges
  {runtime : NodeRuntime} (secret : string) (req : Request) (w : World)
  (payload : SymplaWebhookPayload) :
  validateSignature secret (body req) (headers req "x-sympla-signature")
  = true ->
  JSON_parse_payload (body req) = Some payload ->
  exists now w',
    processWebhook secret req w
    = (Return {| statusCode := 200;
                 json := Acknowledgment "success"
                           "Webhook processado com sucesso" now |}, w')
    /\ (event payload = "order.approved" ->
        gateway_succeeds w (data payload) = false ->
        status_of (order_identifier (data payload)) w' = Some DECLINED).
Proof.
  intros Hsig Hp. eexists. eexists. split.
  - apply (processWebhook_dispatches secret req w payload Hsig Hp).
  - intros Hev Hdown. unfold status_of.
    cbn [after_readings donationAttempts].
    unfold dispatch. rewrite Hev. cbn [String.eqb Ascii.eqb Bool.eqb].
    destruct (handleOrderApproved_spec secret (data payload) w)
      as (a & w' & Hrun & Hmap & _ & _ & Hst & _).
    rewrite Hrun. cbn [snd]. rewrite Hmap, get_set_same. cbn [option_map].
    rewrite Hst, Hdown. reflexivity.
Qed.

(** C4, an instance: an approved order, signed with the handler's secret,
    while the gateway is down. *)
Lemma processWebhook_acknowledges_witness :
  let b := Buffer.from (JSON.stringify_payload (an_event "order.approved")) in
  let req := request_with (Some (@sign node "s" b)) b in
  exists now w',
    @processWebhook node "s" req (world_at 0 false)
    = (Return {| statusCode := 200;
                 json := Acknowledgment "success"
                           "Webhook processado com sucesso" now |}, w')
    /\ status_of "order-123" w' = Some DECLINED.
Proof.
  intros b req.
  destruct (@processWebhook_acknowledges node "s" req (world_at 0 false)
              (an_event "order.approved"))
    as (now & w' & Hrun & Hdeclined).
  - vm_compute. reflexivity.
  - vm_compute. reflexivity.
  - exists now, w'. split; [exact Hrun|].
    apply Hdeclined; reflexivity.
Defined.

Lemma dispatch_all_keeps_keys_once {runtime : NodeRuntime} (secret : string)
  (events : list SymplaWebhookPayload) (w : World) :
  (forall k, (JsMap.count_key k (donationAttempts w) <= 1)%nat) ->
  forall k,
    (JsMap.count_key k (donationAttempts (dispatch_all secret events w))
     <= 1)%nat.
Proof.
  revert w. induction events as [|ev events IH]; intros w Hinv; [exact Hinv|].
  cbn [dispatch_all]. apply IH. now apply dispatch_keeps_keys_once.
Qed.

Lemma serve_keeps_keys_once {runtime : NodeRuntime} (secret : string)
  (requests : list Request) (w : World) :
  (forall k, (JsMap.count_key k (donationAttempts w) <= 1)%nat) ->
  forall k,
    (JsMap.count_key k (donationAttempts (serve secret requests w))
     <= 1)%nat.
Proof.
  revert w. induction requests as [|req requests IH]; intros w Hinv;
    [exact Hinv|].
  cbn [serve]. apply IH. now apply processWebhook_keeps_keys_once.
Qed.

(** C5.  Two [order.approved] events for one order identifier, dispatched
    from an empty map, leave one attempt, that of the second event:
    [getDonations] has length 1.  And after any sequence of events, or of
    requests, served from an empty map, no order identifier has more than one
    entry. *)
Theorem one_attempt_per_order
  {runtime : NodeRuntime} (secret : string) :
  (forall e1 e2 w,
      event e1 = "order.approved" -> event e2 = "order.approved" ->
      order_identifier (data e1) = order_identifier (data e2) ->
      donationAttempts w = JsMap.empty ->
      exists a,
        getDonations (dispatch_all secret [e1; e2] w) = [a]
        /\ sympla_order_id a = order_identifier (data e2)
        /\ sympla_event_id a = event_id (data e2))
  /\ (forall events w k,
         donationAttempts w = JsMap.empty ->
         (JsMap.count_key k (donationAttempts (dispatch_all secret events w))
          <= 1)%nat)
  /\ (forall requests w k,
         donationAttempts w = JsMap.empty ->
         (JsMap.count_key k (donationAttempts (serve secret requests w))
          <= 1)%nat).
Proof.
  split; [|split].
  - intros e1 e2 w H1 H2 Hid Hempty.
    cbn [dispatch_all]. unfold dispatch at 2. rewrite H1.
    cbn [String.eqb Ascii.eqb Bool.eqb].
    destruct (handleOrderApproved_spec secret (data e1) w)
      as (a1 & w1 & Hrun1 & Hmap1 & _).
    rewrite Hrun1. cbn [snd].
    unfold dispatch. rewrite H2. cbn [String.eqb Ascii.eqb Bool.eqb].
    destruct (handleOrderApproved_spec secret (data e2) w1)
      as (a2 & w2 & Hrun2 & Hmap2 & Hid2 & Hev2 & _).
    rewrite Hrun2. cbn [snd]. exists a2.
    unfold getDonations. rewrite Hmap2, Hmap1, Hempty, Hid.
    cbn [JsMap.set JsMap.empty]. rewrite String.eqb_refl.
    repeat split; assumption.
  - intros events w k Hempty. apply dispatch_all_keeps_keys_once.
    intros k'. rewrite Hempty. cbn. lia.
  - intros requests w k Hempty. apply serve_keeps_keys_once.
    intros k'. rewrite Hempty. cbn. lia.
Qed.

(** C5, an instance: the order [order-123] approved twice. *)
Lemma one_attempt_per_order_witness :
  List.length
    (getDonations
       (@dispatch_all node "s"
          [an_event "order.approved"; an_event "order.approved"]
          (world_at 0 true))) = 1%nat.
Proof.
  destruct (@one_attempt_per_order node "s") as [Htwice _].
  destruct (Htwice (an_event "order.approved") (an_event "order.approved")
              (world_at 0 true) eq_refl eq_refl eq_refl eq_refl)
    as (a & Hlist & _).
  now rewrite Hlist.
Defined.

(** C8.  For every timestamp and tolerance in minutes (5 when none is
    given), [validateTimestamp] throws nothing and returns [true] exactly
    when the timestamp parses to an instant whose distance from the reading
    of the clock, on either side, is at most the tolerance times 60000
    milliseconds; it returns [false] when the timestamp does not parse. *)
Theorem validateTimestamp_window
  {runtime : NodeRuntime} (t : string) (m : option Z) (w : World) :
  let tolerance := match m with Some m => m | None => 5%Z end in
  let now := clock w 0 in
  exists valid,
    validateTimestamp t m w = (Return valid, after_readings 1 w)
    /\ (valid = true <->
        exists webhookTime,
          Date_parse t = Some webhookTime
          /\ (Z.abs (now - webhookTime) <= tolerance * 60000)%Z)
    /\ (valid = true <->
        exists webhookTime,
          Date_parse t = Some webhookTime
          /\ (now - tolerance * 60000 <= webhookTime
              <= now + tolerance * 60000)%Z)
    /\ (Date_parse t = None -> valid = false).
Proof.
  intros tolerance now.
  eexists. split; [reflexivity|].
  fold tolerance. fold now.
  destruct (Date_parse t) as [webhookTime|].
  - split; [|split].
    + rewrite Z.leb_le. split.
      * intros H. exists webhookTime. split; [reflexivity | lia].
      * intros (x & [= <-] & H). lia.
    + rewrite Z.leb_le. split.
      * intros H. exists webhookTime. split; [reflexivity | lia].
      * intros (x & [= <-] & H). lia.
    + discriminate.
  - split; [|split].
    + split; [discriminate | intros (x & Hx & _); discriminate].
    + split; [discriminate | intros (x & Hx & _); discriminate].
    + reflexivity.
Qed.

(** C9 (as amended).  An event of kind [order.created], or of a kind the
    handler does not know, leaves the map, and so the status of every
    attempt, as it was.  For an attempt stored under the event's order, in
    whatever status, [order.cancelled] makes the status [CANCELLED],
    [order.refunded] makes it [REFUNDED], and [order.approved] makes it
    [COMPLETED] or [DECLINED] as the call of the gateway succeeds or fails:
    the status after the event is [transition] of the status before. *)
Theorem status_after_event
  {runtime : NodeRuntime} (secret : string)
  (payload : SymplaWebhookPayload) (w : World) (a : DonationAttempt) :
  let k := order_identifier (data payload) in
  JsMap.get k (donationAttempts w) = Some a ->
  exists w',
    dispatch secret payload w = (Return tt, w')
    /\ status_of k w'
       = Some (transition (event payload)
                 (gateway_succeeds w (data payload)) (status a))
    /\ (event payload <> "order.approved" ->
        event payload <> "order.cancelled" ->
        event payload <> "order.refunded" ->
        donationAttempts w' = donationAttempts w).
Proof.
  intros k Hget.
  destruct (dispatch_spec secret payload w)
    as (w' & Hrun & [[Hmap Hnext] | [a' [Hmap Hnext]]]);
    exists w'; (split; [exact Hrun|]); split.
  - unfold status_of. rewrite Hmap. fold k. rewrite Hget. cbn [option_map].
    now rewrite Hnext.
  - intros _ _ _. exact Hmap.
  - unfold status_of. rewrite Hmap. fold k. rewrite get_set_same.
    cbn [option_map]. now rewrite <- Hnext.
  - intros H1 H2 H3. exfalso.
    pose proof (Hnext PENDING_USER_ACTION) as Hp.
    pose proof (Hnext CONSENT_GIVEN) as Hc.
    unfold transition in Hp, Hc.
    destruct (String.eqb_spec (event payload) "order.approved");
      [contradiction|].
    destruct (String.eqb_spec (event payload) "order.cancelled");
      [contradiction|].
    destruct (String.eqb_spec (event payload) "order.refunded");
      [contradiction|].
    congruence.
Qed.

(** C9, an instance: a completed attempt is cancelled by the cancellation
    of its order. *)
Lemma status_after_event_witness :
  status_of "order-123"
    (snd (@dispatch node "s" (an_event "order.cancelled")
            (world_with (an_attempt COMPLETED))))
  = Some CANCELLED.
Proof.
  destruct (@status_after_event node "s" (an_event "order.cancelled")
              (world_with (an_attempt COMPLETED)) (an_attempt COMPLETED)
              eq_refl)
    as (w' & Hrun & Hstatus & _).
  rewrite Hrun. exact Hstatus.
Defined.

(** C9, as first stated, fails: [COMPLETED] is not terminal, an
    [order.cancelled] event after it changes the status to [CANCELLED], and
    an [order.refunded] event to [REFUNDED]. *)
Lemma completed_is_not_terminal :
  let w1 := @dispatch_all node "s" [an_event "order.approved"]
              (world_at 0 true) in
  status_of "order-123" w1 = Some COMPLETED
  /\ status_of "order-123"
       (@dispatch_all node "s" [an_event "order.cancelled"] w1)
     = Some CANCELLED
  /\ status_of "order-123"
       (@dispatch_all node "s" [an_event "order.refunded"] w1)
     = Some REFUNDED.
Proof. vm_compute. repeat split. Qed.

(* ================================================================== *)
(** * [SignatureValidator]: more properties *)
(* ================================================================== *)

(** X1.  [validateSignature] returns [true] exactly when the header is not
    empty and, its [sha256=] prefix removed and the rest trimmed, decodes
    from hexadecimal to the very bytes of the HMAC-SHA256 of the payload
    under the secret; an absent header never verifies. *)
Theorem validateSignature_exactly
  {runtime : NodeRuntime} (secret : string) (payload : list byte) :
  validateSignature secret payload None = false
  /\ forall h,
       validateSignature secret payload (Some h) = true
       <-> h <> EmptyString
           /\ Buffer.from_hex
                (JsString.trim (JsString.replace_prefix_i "sha256=" h))
              = hmac_sha256 (Buffer.from secret) payload.
Proof.
  split; [reflexivity|]. intros h.
  destruct h as [|c h].
  { split; [discriminate | intros [H _]; congruence]. }
  unfold validateSignature. cbv zeta.
  rewrite from_hex_toString_hex.
  set (received :=
         Buffer.from_hex
           (JsString.trim (JsString.replace_prefix_i "sha256=" (String c h)))).
  set (expected := hmac_sha256 (Buffer.from secret) payload).
  unfold timingSafeEqual.
  destruct (List.length received =? List.length expected)%nat eqn:Hlen;
    cbn [negb].
  - split.
    + intros H. split; [discriminate | now apply Buffer_eqb_eq].
    + intros [_ ->]. apply Buffer_eqb_refl.
  - split; [discriminate|].
    intros [_ Heq]. rewrite Heq, Nat.eqb_refl in Hlen. discriminate.
Qed.

(* ================================================================== *)
(** * [SignatureValidator]: the case of the letters *)
(* ================================================================== *)

Lemma is_whitespace_canonicalize (c : ascii) :
  JsString.is_whitespace (JsString.canonicalize c) = JsString.is_whitespace c.
Proof. destruct c as [[] [] [] [] [] [] [] []]; reflexivity. Qed.

Lemma unhex_canonicalize (c : ascii) :
  Buffer.unhex (JsString.canonicalize c) = Buffer.unhex c.
Proof. destruct c as [[] [] [] [] [] [] [] []]; reflexivity. Qed.

Section IgnoreCase.

(** A reading of characters that does not look at the case of letters. *)
Variable A : Type.
Variable f : ascii -> A.
Hypothesis f_canonicalize : forall c, f (JsString.canonicalize c) = f c.

Lemma same_reading (c c' : ascii) :
  (JsString.canonicalize c =? JsString.canonicalize c')%char = true ->
  f c = f c'.
Proof.
  intros H. apply Ascii.eqb_eq in H.
  now rewrite <- (f_canonicalize c), H, f_canonicalize.
Qed.

End IgnoreCase.

Lemma eq_ignore_case_cons (c c' : ascii) (s s' : string) :
  eq_ignore_case (String c s) (String c' s') = true ->
  (JsString.canonicalize c =? JsString.canonicalize c')%char = true
  /\ eq_ignore_case s s' = true.
Proof. cbn [eq_ignore_case]. apply andb_true_iff. Qed.

Lemma all_whitespace_ignore_case (s s' : string) :
  eq_ignore_case s s' = true ->
  JsString.all_whitespace s = JsString.all_whitespace s'.
Proof.
  revert s'. induction s as [|c s IH]; intros [|c' s'] H;
    try discriminate; [reflexivity|].
  apply eq_ignore_case_cons in H as [Hc Hs]. cbn [JsString.all_whitespace].
  now rewrite (same_reading _ _ is_whitespace_canonicalize c c' Hc),
    (IH s' Hs).
Qed.

Lemma trimStart_ignore_case (s s' : string) :
  eq_ignore_case s s' = true ->
  eq_ignore_case (JsString.trimStart s) (JsString.trimStart s') = true.
Proof.
  revert s'. induction s as [|c s IH]; intros [|c' s'] H;
    try discriminate; [reflexivity|].
  pose proof H as H0. apply eq_ignore_case_cons in H as [Hc Hs].
  cbn [JsString.trimStart].
  rewrite (same_reading _ _ is_whitespace_canonicalize c c' Hc).
  destruct (JsString.is_whitespace c'); [now apply IH | exact H0].
Qed.

Lemma trimEnd_ignore_case (s s' : string) :
  eq_ignore_case s s' = true ->
  eq_ignore_case (JsString.trimEnd s) (JsString.trimEnd s') = true.
Proof.
  revert s'. induction s as [|c s IH]; intros [|c' s'] H;
    try discriminate; [reflexivity|].
  apply eq_ignore_case_cons in H as [Hc Hs].
  cbn [JsString.trimEnd].
  rewrite (same_reading _ _ is_whitespace_canonicalize c c' Hc),
    (all_whitespace_ignore_case s s' Hs).
  destruct (JsString.is_whitespace c' && JsString.all_whitespace s');
    [reflexivity|].
  cbn [eq_ignore_case]. now rewrite Hc, IH.
Qed.

Lemma match_prefix_i_ignore_case (pat s s' : string) :
  eq_ignore_case s s' = true ->
  match JsString.match_prefix_i pat s, JsString.match_prefix_i pat s' with
  | Some r, Some r' => eq_ignore_case r r' = true
  | None, None => True
  | _, _ => False
  end.
Proof.
  revert s s'. induction pat as [|p pat IH]; intros s s' H;
    cbn [JsString.match_prefix_i]; [exact H|].
  destruct s as [|c s], s' as [|c' s']; try discriminate; [exact I|].
  apply eq_ignore_case_cons in H as [Hc Hs].
  apply Ascii.eqb_eq in Hc. rewrite Hc.
  destruct (JsString.canonicalize c' =? JsString.canonicalize p)%char;
    [now apply IH | exact I].
Qed.

Lemma from_hex_ignore_case (s s' : string) :
  eq_ignore_case s s' = true -> Buffer.from_hex s = Buffer.from_hex s'.
Proof.
  enough (H : (forall s', eq_ignore_case s s' = true ->
                 Buffer.from_hex s = Buffer.from_hex s')
              /\ (forall a s', eq_ignore_case (String a s) s' = true ->
                    Buffer.from_hex (String a s) = Buffer.from_hex s'))
    by (apply H).
  clear s'. induction s as [|b s [IH1 IH2]].
  - split.
    + intros [|c' s'] H; [reflexivity | discriminate].
    + intros a [|a' [|b' s']] H; try discriminate; [reflexivity|].
      apply eq_ignore_case_cons in H as [_ H]. discriminate.
  - split; [apply IH2|].
    intros a [|a' [|b' s']] H; try discriminate.
    + apply eq_ignore_case_cons in H as [_ H]. discriminate.
    + apply eq_ignore_case_cons in H as [Ha H].
      apply eq_ignore_case_cons in H as [Hb Hs].
      cbn [Buffer.from_hex].
      rewrite (same_reading _ _ unhex_canonicalize a a' Ha),
        (same_reading _ _ unhex_canonicalize b b' Hb), (IH1 s' Hs).
      reflexivity.
Qed.

(** X2.  The verification does not look at the case of the letters of the
    header: two headers that differ only in the case of ASCII letters, in
    the prefix or in the hexadecimal digits, are both accepted or both
    refused. *)
Theorem validateSignature_ignores_case
  {runtime : NodeRuntime} (secret : string) (payload : list byte)
  (h h' : string) :
  eq_ignore_case h h' = true ->
  validateSignature secret payload (Some h)
  = validateSignature secret payload (Some h').
Proof.
  intros H.
  assert (Hbuf :
    Buffer.from_hex (JsString.trim (JsString.replace_prefix_i "sha256=" h))
    = Buffer.from_hex
        (JsString.trim (JsString.replace_prefix_i "sha256=" h'))).
  { apply from_hex_ignore_case. unfold JsString.trim.
    apply trimEnd_ignore_case, trimStart_ignore_case.
    unfold JsString.replace_prefix_i.
    pose proof (match_prefix_i_ignore_case "sha256=" h h' H) as Hm.
    destruct (JsString.match_prefix_i "sha256=" h),
      (JsString.match_prefix_i "sha256=" h'); tauto. }
  destruct h as [|c h], h' as [|c' h']; try discriminate; [reflexivity|].
  unfold validateSignature. cbv zeta. now rewrite Hbuf.
Qed.

Lemma validateSignature_ignores_case_witness :
  @validateSignature node "s" [] (Some "SHA256=0A1b")
  = @validateSignature node "s" [] (Some "sha256=0a1B").
Proof.
  apply (@validateSignature_ignores_case node "s" [] "SHA256=0A1b"
           "sha256=0a1B").
  reflexivity.
Defined.

(* ================================================================== *)
(** * [TokenGenerator]: more properties *)
(* ================================================================== *)

Lemma Buffer_from_injective (a b : string) :
  Buffer.from a = Buffer.from b -> a = b.
Proof.
  intros H. apply (f_equal JSON.utf8_decode) in H.
  rewrite !utf8_decode_from in H. now injection H.
Qed.


Lemma timingSafeEqual_differ (a b : list byte) :
  a <> b ->
  timingSafeEqual a b = Return false
  \/ exists e, timingSafeEqual a b = Throw e.
Proof.
  intros Hne. unfold timingSafeEqual.
  destruct (List.length a =? List.length b)%nat; [|right; eauto].
  left. destruct (Buffer.eqb a b) eqn:E; [|reflexivity].
  apply Buffer_eqb_eq in E. contradiction.
Qed.


Section TokenMore.

Context {runtime : NodeRuntime}.

Hypothesis base64url_roundtrip : base64url_roundtrip_law.
Hypothesis base64url_alphabet : base64url_alphabet_law.

Lemma base64url_encode_injective (a b : list byte) :
  base64url_encode a = base64url_encode b -> a = b.
Proof.
  intros H. apply (f_equal base64url_decode) in H.
  now rewrite !base64url_roundtrip in H.
Qed.

Lemma split_wire (secret : string) (payload : DonationToken) :
  let ep := base64url_encode (Buffer.from (JSON_stringify payload)) in
  JsString.split "." (wire secret payload) = [ep; signPayload secret ep].
Proof.
  intros ep. subst ep. unfold wire, signPayload. cbn [String.append].
  rewrite (split_at_separator "." _ _ (base64url_alphabet _)).
  now rewrite (split_no_separator "." _ (base64url_alphabet _)).
Qed.

Lemma validateToken_other_key (secret secret' : string)
  (payload : DonationToken) (w : World) :
  let ep := base64url_encode (Buffer.from (JSON_stringify payload)) in
  hmac_sha256 (Buffer.from secret') (Buffer.from ep)
  <> hmac_sha256 (Buffer.from secret) (Buffer.from ep) ->
  validateToken secret' (wire secret payload) w = (Return None, w).
Proof.
  intros ep Hdiff. unfold validateToken. rewrite split_wire. fold ep.
  cbn [hd nth_error Buffer_from_value]. unfold try_catch, bind, lift.
  destruct (timingSafeEqual_differ
              (Buffer.from (signPayload secret ep))
              (Buffer.from (signPayload secret' ep))) as [-> | [e ->]];
    try reflexivity.
  intros H. apply Buffer_from_injective in H. unfold signPayload in H.
  apply base64url_encode_injective in H. congruence.
Qed.

End TokenMore.

(** X4.  A token issued under one secret is rejected under every secret for
    which the HMAC of its payload segment differs, at whatever time it is
    validated, and without a reading of the clock. *)
Theorem validateToken_rejects_other_secret
  {runtime : NodeRuntime}
  (base64url_roundtrip : base64url_roundtrip_law)
  (base64url_alphabet : base64url_alphabet_law)
  (secret secret' o e : string) (w w2 : World) :
  let payload := {| orderId := o; eventId := e; timestamp := clock w 0;
                    exp := (clock w 1 + DAY)%Z |} in
  let ep := base64url_encode (Buffer.from (JSON_stringify payload)) in
  hmac_sha256 (Buffer.from secret') (Buffer.from ep)
  <> hmac_sha256 (Buffer.from secret) (Buffer.from ep) ->
  exists token,
    fst (generateDonationToken secret o e w) = Return token
    /\ validateToken secret' token w2 = (Return None, w2).
Proof.
  intros payload ep Hdiff. eexists. split; [reflexivity|].
  now apply validateToken_other_key.
Qed.

Lemma validateToken_rejects_other_secret_witness :
  exists token,
    fst (@generateDonationToken node "test-secret-key" "order-123" "event-456"
           (world_at 1234567890000 false)) = Return token
    /\ fst (@validateToken node "different-secret" token
              (world_at 1234567890000 false)) = Return None.
Proof.
  destruct (@validateToken_rejects_other_secret node
              node_base64url_roundtrip node_base64url_alphabet
              "test-secret-key" "different-secret" "order-123" "event-456"
              (world_at 1234567890000 false) (world_at 1234567890000 false))
    as (token & Hgen & Hval).
  - vm_compute. discriminate.
  - exists token. split; [exact Hgen | now rewrite Hval].
Defined.

Lemma generateDonationToken_injective
  {runtime : NodeRuntime}
  (base64url_roundtrip : base64url_roundtrip_law)
  (base64url_alphabet : base64url_alphabet_law)
  (JSON_roundtrip : JSON_roundtrip_law)
  (secret o1 e1 o2 e2 : string) (w1 w2 : World) :
  fst (generateDonationToken secret o1 e1 w1)
  = fst (generateDonationToken secret o2 e2 w2) ->
  o1 = o2 /\ e1 = e2 /\ clock w1 0 = clock w2 0 /\ clock w1 1 = clock w2 1.
Proof.
  rewrite !generateDonationToken_wire. cbn [fst]. intros [= H].
  apply (f_equal (JsString.split ".")) in H.
  rewrite !(split_wire base64url_alphabet) in H.
  injection H as H _.
  apply (base64url_encode_injective base64url_roundtrip) in H.
  apply Buffer_from_injective in H.
  apply (f_equal (fun s => JSON_parse_token (Buffer.from s))) in H.
  rewrite !JSON_roundtrip in H. injection H as -> -> -> Hexp.
  repeat split. unfold DAY in Hexp. lia.
Qed.

(** X5.  Two calls of [generateDonationToken] under one secret that differ
    in the order, in the event or in a reading of the clock return different
    tokens. *)
Theorem generateDonationToken_distinct
  {runtime : NodeRuntime}
  (base64url_roundtrip : base64url_roundtrip_law)
  (base64url_alphabet : base64url_alphabet_law)
  (JSON_roundtrip : JSON_roundtrip_law)
  (secret o1 e1 o2 e2 : string) (w1 w2 : World) :
  o1 <> o2 \/ e1 <> e2 \/ clock w1 0 <> clock w2 0
  \/ clock w1 1 <> clock w2 1 ->
  fst (generateDonationToken secret o1 e1 w1)
  <> fst (generateDonationToken secret o2 e2 w2).
Proof.
  intros Hdiff Heq.
  apply (generateDonationToken_injective base64url_roundtrip
           base64url_alphabet JSON_roundtrip) in Heq.
  destruct Heq as (H1 & H2 & H3 & H4).
  destruct Hdiff as [H | [H | [H | H]]]; contradiction.
Qed.

Lemma generateDonationToken_distinct_witness :
  fst (@generateDonationToken node "test-secret-key" "order-1" "event-1"
         (world_at 1234567890000 false))
  <> fst (@generateDonationToken node "test-secret-key" "order-2" "event-2"
            (world_at 1234567890000 false)).
Proof.
  apply (@generateDonationToken_distinct node node_base64url_roundtrip
           node_base64url_alphabet node_JSON_roundtrip).
  left. discriminate.
Defined.

(** X6.  The token [generateDonationToken] returns has two segments and no
    more; the first decodes and parses to the order, the event, the first
    reading of the clock as [timestamp] and the second plus 24 hours as
    [exp], so that [exp] is after [timestamp] when the clock did not go
    back; the second is the signature of the first. *)
Theorem generateDonationToken_structure
  {runtime : NodeRuntime}
  (base64url_roundtrip : base64url_roundtrip_law)
  (base64url_alphabet : base64url_alphabet_law)
  (JSON_roundtrip : JSON_roundtrip_law)
  (secret o e : string) (w : World) :
  exists token encodedPayload payload,
    generateDonationToken secret o e w = (Return token, after_readings 2 w)
    /\ JsString.split "." token
       = [encodedPayload; signPayload secret encodedPayload]
    /\ JSON_parse_token (base64url_decode encodedPayload) = Some payload
    /\ payload = {| orderId := o; eventId := e; timestamp := clock w 0;
                    exp := (clock w 1 + 86400000)%Z |}
    /\ ((clock w 0 <= clock w 1)%Z -> (timestamp payload < exp payload)%Z).
Proof.
  eexists. eexists. eexists. split; [apply generateDonationToken_wire|].
  split; [apply (split_wire base64url_alphabet)|].
  split; [now rewrite base64url_roundtrip, JSON_roundtrip|].
  split; [reflexivity|]. cbn [timestamp exp]. unfold DAY. lia.
Qed.

Lemma generateDonationToken_structure_witness :
  exists token encodedPayload,
    fst (@generateDonationToken node "test-secret-key" "order-123" "event-456"
           (world_at 1234567890000 false)) = Return token
    /\ JsString.split "." token
       = [encodedPayload; @signPayload node "test-secret-key" encodedPayload]
    /\ @JSON_parse_token node (@base64url_decode node encodedPayload)
       = Some {| orderId := "order-123"; eventId := "event-456";
                 timestamp := 1234567890000; exp := 1234654290000 |}.
Proof.
  destruct (@generateDonationToken_structure node node_base64url_roundtrip
              node_base64url_alphabet node_JSON_roundtrip
              "test-secret-key" "order-123" "event-456"
              (world_at 1234567890000 false))
    as (token & ep & payload & Hgen & Hsplit & Hparse & Hpay & _).
  exists token, ep. split; [now rewrite Hgen|]. split; [exact Hsplit|].
  rewrite Hparse, Hpay. reflexivity.
Defined.

(* ================================================================== *)
(** * [WebhookHandler]: the handlers in full *)
(* ================================================================== *)

Lemma set_absent {V : Type} (k : string) (v : V) (m : JsMap.t V) :
  JsMap.get k m = None -> JsMap.set k v m = m ++ [(k, v)].
Proof.
  induction m as [|[k' v'] m IH]; simpl; [reflexivity|].
  destruct (k' =? k)%string; [discriminate|].
  intros H. now rewrite IH.
Qed.

Lemma keys_set_present {V : Type} (k : string) (v : V) (m : JsMap.t V) :
  JsMap.get k m <> None -> JsMap.keys (JsMap.set k v m) = JsMap.keys m.
Proof.
  unfold JsMap.keys.
  induction m as [|[k' v'] m IH]; simpl; [congruence|].
  destruct (k' =? k)%string; simpl; [reflexivity|].
  intros H. now rewrite IH.
Qed.

Lemma In_set {V : Type} (k k' : string) (v v' : V) (m : JsMap.t V) :
  In (k', v') (JsMap.set k v m) -> (k', v') = (k, v) \/ In (k', v') m.
Proof.
  induction m as [|[k0 v0] m IH]; simpl.
  - intros [H | []]. left. now symmetry.
  - destruct (String.eqb_spec k0 k) as [-> | Hne]; simpl.
    + intros [H | H]; [left; now symmetry | right; now right].
    + intros [H | H]; [right; now left|].
      destruct (IH H) as [H' | H']; [now left | right; now right].
Qed.

Lemma get_In {V : Type} (k : string) (v : V) (m : JsMap.t V) :
  JsMap.get k m = Some v -> In (k, v) m.
Proof.
  induction m as [|[k0 v0] m IH]; simpl; [discriminate|].
  destruct (String.eqb_spec k0 k) as [-> | Hne].
  - intros [= ->]. now left.
  - intros H. right. now apply IH.
Qed.

(** The attempt a handler makes for an order it has no entry for. *)
Lemma new_attempt_fields (d : SymplaOrderData) (i : string) (s : Status)
  (token : string) (created updated : Z) :
  let a := {| id := i;
              sympla_order_id := order_identifier d;
              sympla_event_id := event_id d;
              status := s;
              donation_token := token;
              created_at := created;
              updated_at := updated;
              donor_name := donorName_of d;
              donor_email := buyer_email d;
              attempt_event_name := event_name d;
              order_amount := total_order_amount d |} in
  donor_name a <> EmptyString.
Proof.
  cbn. unfold donorName_of. destruct (buyer_first_name d); discriminate.
Qed.

Section HandlersInFull.

Context {runtime : NodeRuntime}.

Variable secret : string.

Lemma handleOrderApproved_full (d : SymplaOrderData) (w : World) :
  exists token,
    handleOrderApproved secret d w
    = (Return tt,
       {| donationAttempts :=
            JsMap.set (order_identifier d)
              {| id := uuids w 0;
                 sympla_order_id := order_identifier d;
                 sympla_event_id := event_id d;
                 status := if gateway_succeeds w d then COMPLETED else DECLINED;
                 donation_token := token;
                 created_at := clock w 2;
                 updated_at := clock w 4;
                 donor_name := donorName_of d;
                 donor_email := buyer_email d;
                 attempt_event_name := event_name d;
                 order_amount := total_order_amount d |}
              (donationAttempts w);
          clock := fun i => clock w (5 + i);
          uuids := later (uuids w);
          gateway := later (gateway w) |})
    /\ fst (generateDonationToken secret (order_identifier d) (event_id d)
              w) = Return token.
Proof.
  eexists. split; [|reflexivity].
  unfold gateway_succeeds, handleOrderApproved, createDonationWithConsent,
    generateDonationToken, try_catch, bind, uuidv4, Date_now, ret,
    donationAttempts_set, createDonation.
  cbn [donationAttempts clock uuids gateway].
  fold (donationRequest_of d).
  destruct (gateway w 0 (donationRequest_of d)) as [response|];
    cbn [donationAttempts gateway clock uuids]; rewrite set_set; reflexivity.
Qed.

Lemma handleOrderCancelled_full (d : SymplaOrderData) (w : World) :
  handleOrderCancelled d w
  = (Return tt,
     match JsMap.get (order_identifier d) (donationAttempts w) with
     | Some existingAttempt =>
         {| donationAttempts :=
              JsMap.set (order_identifier d)
                (set_status existingAttempt CANCELLED (clock w 0))
                (donationAttempts w);
            clock := fun i => clock w (1 + i);
            uuids := uuids w;
            gateway := gateway w |}
     | None =>
         {| donationAttempts :=
              JsMap.set (order_identifier d)
                {| id := uuids w 0;
                   sympla_order_id := order_identifier d;
                   sympla_event_id := event_id d;
                   status := CANCELLED;
                   donation_token := EmptyString;
                   created_at := clock w 0;
                   updated_at := clock w 1;
                   donor_name := donorName_of d;
                   donor_email := buyer_email d;
                   attempt_event_name := event_name d;
                   order_amount := total_order_amount d |}
                (donationAttempts w);
            clock := fun i => clock w (2 + i);
            uuids := later (uuids w);
            gateway := gateway w |}
     end).
Proof.
  unfold handleOrderCancelled, bind, donationAttempts_get, uuidv4, Date_now,
    donationAttempts_set.
  destruct (JsMap.get (order_identifier d) (donationAttempts w));
    reflexivity.
Qed.

Lemma handleOrderRefunded_full (d : SymplaOrderData) (w : World) :
  handleOrderRefunded d w
  = (Return tt,
     match JsMap.get (order_identifier d) (donationAttempts w) with
     | Some existingAttempt =>
         {| donationAttempts :=
              JsMap.set (order_identifier d)
                (set_status existingAttempt REFUNDED (clock w 0))
                (donationAttempts w);
            clock := fun i => clock w (1 + i);
            uuids := uuids w;
            gateway := gateway w |}
     | None =>
         {| donationAttempts :=
              JsMap.set (order_identifier d)
                {| id := uuids w 0;
                   sympla_order_id := order_identifier d;
                   sympla_event_id := event_id d;
                   status := REFUNDED;
                   donation_token :=
                     ("token_" ++ JsString.of_number (clock w 0))%string;
                   created_at := clock w 1;
                   updated_at := clock w 2;
                   donor_name := donorName_of d;
                   donor_email := buyer_email d;
                   attempt_event_name := event_name d;
                   order_amount := total_order_amount d |}
                (donationAttempts w);
            clock := fun i => clock w (3 + i);
            uuids := later (uuids w);
            gateway := gateway w |}
     end).
Proof.
  unfold handleOrderRefunded, bind, donationAttempts_get, uuidv4, Date_now,
    donationAttempts_set.
  destruct (JsMap.get (order_identifier d) (donationAttempts w));
    reflexivity.
Qed.

End HandlersInFull.

(* ================================================================== *)
(** * [WebhookHandler]: more properties *)
(* ================================================================== *)

(** X7.  An [order.cancelled] or [order.refunded] event for an order that
    has no entry adds one at the end of the map: an attempt made of the
    order's data, with a fresh identifier, [CANCELLED] with an empty token
    or [REFUNDED] with the token [token_] followed by the reading of the
    clock; the gateway is not called. *)
Theorem cancel_or_refund_of_unknown_order
  {runtime : NodeRuntime} (secret : string)
  (payload : SymplaWebhookPayload) (w : World) :
  let d := data payload in
  let k := order_identifier d in
  JsMap.get k (donationAttempts w) = None ->
  event payload = "order.cancelled" \/ event payload = "order.refunded" ->
  exists a w',
    dispatch secret payload w = (Return tt, w')
    /\ donationAttempts w' = donationAttempts w ++ [(k, a)]
    /\ gateway w' = gateway w
    /\ id a = uuids w 0
    /\ sympla_order_id a = k /\ sympla_event_id a = event_id d
    /\ donor_name a
       = (buyer_first_name d ++ " " ++ buyer_last_name d)%string
    /\ donor_email a = buyer_email d
    /\ attempt_event_name a = event_name d
    /\ order_amount a = total_order_amount d
    /\ (event payload = "order.cancelled" ->
        status a = CANCELLED /\ donation_token a = EmptyString
        /\ created_at a = clock w 0 /\ updated_at a = clock w 1)
    /\ (event payload = "order.refunded" ->
        status a = REFUNDED
        /\ donation_token a
           = ("token_" ++ JsString.of_number (clock w 0))%string
        /\ created_at a = clock w 1 /\ updated_at a = clock w 2).
Proof.
  intros d k Hnone [Hev | Hev]; unfold dispatch; rewrite Hev;
    cbn [String.eqb Ascii.eqb Bool.eqb].
  - rewrite handleOrderCancelled_full. fold d k. rewrite Hnone.
    eexists. eexists. split; [reflexivity|]. cbn [donationAttempts gateway].
    rewrite (set_absent k _ _ Hnone).
    repeat split; try reflexivity; discriminate.
  - rewrite handleOrderRefunded_full. fold d k. rewrite Hnone.
    eexists. eexists. split; [reflexivity|]. cbn [donationAttempts gateway].
    rewrite (set_absent k _ _ Hnone).
    repeat split; try reflexivity; discriminate.
Qed.

Lemma cancel_or_refund_of_unknown_order_witness :
  map status
    (getDonations
       (snd (@dispatch node "s" (an_event "order.cancelled")
               (world_at 7 true)))) = [CANCELLED]
  /\ map donation_token
       (getDonations
          (snd (@dispatch node "s" (an_event "order.refunded")
                  (world_at 7 true)))) = ["token_7"].
Proof.
  split.
  - destruct (@cancel_or_refund_of_unknown_order node "s"
                (an_event "order.cancelled") (world_at 7 true) eq_refl
                (or_introl eq_refl))
      as (a & w' & Hrun & Hmap & _ & _ & _ & _ & _ & _ & _ & _ & Hc & _).
    rewrite Hrun. unfold getDonations. cbn [snd]. rewrite Hmap.
    destruct (Hc eq_refl) as (Hs & _). cbn. rewrite Hs. reflexivity.
  - destruct (@cancel_or_refund_of_unknown_order node "s"
                (an_event "order.refunded") (world_at 7 true) eq_refl
                (or_intror eq_refl))
      as (a & w' & Hrun & Hmap & _ & _ & _ & _ & _ & _ & _ & _ & _ & Hr).
    rewrite Hrun. unfold getDonations. cbn [snd]. rewrite Hmap.
    destruct (Hr eq_refl) as (_ & Ht & _). cbn. rewrite Ht. reflexivity.
Defined.

(** X8.  An [order.cancelled] or [order.refunded] event for an order that
    has an entry changes, of that entry, the status and [updated_at] and
    nothing else: the identifier, the token, [created_at] and the data of the
    donor stay, the keys of the map and their order stay, no identifier is
    drawn and the gateway is not called. *)
Theorem cancel_or_refund_of_known_order
  {runtime : NodeRuntime} (secret : string)
  (payload : SymplaWebhookPayload) (w : World) (a : DonationAttempt) :
  let k := order_identifier (data payload) in
  JsMap.get k (donationAttempts w) = Some a ->
  event payload = "order.cancelled" \/ event payload = "order.refunded" ->
  exists a' w',
    dispatch secret payload w = (Return tt, w')
    /\ donationAttempts w' = JsMap.set k a' (donationAttempts w)
    /\ JsMap.keys (donationAttempts w') = JsMap.keys (donationAttempts w)
    /\ same_but_status a a'
    /\ status a'
       = (if (event payload =? "order.cancelled")%string
          then CANCELLED else REFUNDED)
    /\ updated_at a' = clock w 0
    /\ uuids w' = uuids w /\ gateway w' = gateway w.
Proof.
  intros k Hget [Hev | Hev]; unfold dispatch; rewrite Hev;
    cbn [String.eqb Ascii.eqb Bool.eqb].
  - rewrite handleOrderCancelled_full. fold k. rewrite Hget.
    eexists. eexists. split; [reflexivity|].
    cbn [donationAttempts gateway uuids].
    split; [reflexivity|].
    split; [apply keys_set_present; congruence|].
    repeat split.
  - rewrite handleOrderRefunded_full. fold k. rewrite Hget.
    eexists. eexists. split; [reflexivity|].
    cbn [donationAttempts gateway uuids].
    split; [reflexivity|].
    split; [apply keys_set_present; congruence|].
    repeat split.
Qed.

Lemma cancel_or_refund_of_known_order_witness :
  map status
    (getDonations
       (snd (@dispatch node "s" (an_event "order.refunded")
               (world_with (an_attempt COMPLETED)))))
  = [REFUNDED].
Proof.
  destruct (@cancel_or_refund_of_known_order node "s"
              (an_event "order.refunded") (world_with (an_attempt COMPLETED))
              (an_attempt COMPLETED) eq_refl (or_intror eq_refl))
    as (a' & w' & Hrun & Hmap & _ & _ & Hs & _).
  rewrite Hrun. unfold getDonations. cbn [snd]. rewrite Hmap.
  cbn. rewrite Hs. reflexivity.
Defined.

(* ================================================================== *)
(** * [WebhookHandler]: one step, in full *)
(* ================================================================== *)

Lemma keys_set {V : Type} (k : string) (v : V) (m : JsMap.t V) :
  JsMap.keys (JsMap.set k v m)
  = if existsb (String.eqb k) (JsMap.keys m) then JsMap.keys m
    else JsMap.keys m ++ [k].
Proof.
  unfold JsMap.keys.
  induction m as [|[k' v'] m IH]; simpl; [reflexivity|].
  rewrite (String.eqb_sym k k').
  destruct (k' =? k)%string; simpl; [reflexivity|].
  rewrite IH. now destruct (existsb (String.eqb k) (map fst m)).
Qed.

Lemma monotone_le (clock : nat -> Z) (i j : nat) :
  monotone clock -> (i <= j)%nat -> (clock i <= clock j)%Z.
Proof.
  intros Hm Hij. induction Hij as [|j Hij IH]; [lia|].
  specialize (Hm j). lia.
Qed.

Lemma monotone_shift (clock : nat -> Z) (n : nat) :
  monotone clock -> monotone (fun i => clock (n + i)%nat).
Proof.
  intros Hm i. replace (n + S i)%nat with (S (n + i)) by lia. apply Hm.
Qed.

Section OneStep.

Context {runtime : NodeRuntime}.

Variable secret : string.

(** What [dispatch] does, by the kind of the event and by whether the order
    has an entry: the readings of the clock it makes, the identifiers it
    draws, the calls of the gateway it makes, and the entry it sets. *)
Lemma dispatch_step (payload : SymplaWebhookPayload) (w : World) :
  let d := data payload in
  let k := order_identifier d in
  exists w' (n : nat),
    dispatch secret payload w = (Return tt, w')
    /\ clock w' = (fun i => clock w (n + i)%nat)
    /\ gateway w'
       = (if (event payload =? "order.approved")%string
          then later (gateway w) else gateway w)
    /\ (sets_an_entry (event payload) = false
        /\ donationAttempts w' = donationAttempts w /\ n = 0%nat
        \/ sets_an_entry (event payload) = true
           /\ exists a,
                donationAttempts w' = JsMap.set k a (donationAttempts w)
                /\ is_settled (status a) = true
                /\ ((exists a0,
                       JsMap.get k (donationAttempts w) = Some a0
                       /\ a = set_status a0 (status a) (clock w 0)
                       /\ n = 1%nat)
                    \/ sympla_order_id a = k
                       /\ donor_name a <> EmptyString
                       /\ exists i j,
                            created_at a = clock w i
                            /\ updated_at a = clock w j
                            /\ (i <= j <= n)%nat)).
Proof.
  intros d k. unfold dispatch, sets_an_entry.
  destruct (event payload =? "order.approved")%string.
  { destruct (handleOrderApproved_full secret d w) as (token & Hrun & _).
    eexists. exists 5%nat. split; [exact Hrun|].
    cbn [clock gateway donationAttempts].
    split; [reflexivity|]. split; [reflexivity|].
    right. split; [reflexivity|]. eexists. split; [reflexivity|].
    cbn [status]. split; [now destruct (gateway_succeeds w d)|].
    right. split; [reflexivity|]. split; [apply new_attempt_fields|].
    exists 2%nat, 4%nat. cbn. repeat split; lia. }
  destruct (event payload =? "order.cancelled")%string.
  { rewrite handleOrderCancelled_full. fold d k.
    destruct (JsMap.get k (donationAttempts w)) as [a0|] eqn:Hget.
    - eexists. exists 1%nat. split; [reflexivity|].
      cbn [clock gateway donationAttempts].
      split; [reflexivity|]. split; [reflexivity|].
      right. split; [reflexivity|]. eexists. split; [reflexivity|].
      split; [reflexivity|]. left. exists a0. repeat split.
    - eexists. exists 2%nat. split; [reflexivity|].
      cbn [clock gateway donationAttempts].
      split; [reflexivity|]. split; [reflexivity|].
      right. split; [reflexivity|]. eexists. split; [reflexivity|].
      split; [reflexivity|].
      right. split; [reflexivity|]. split; [apply new_attempt_fields|].
      exists 0%nat, 1%nat. cbn. repeat split; lia. }
  destruct (event payload =? "order.refunded")%string.
  { rewrite handleOrderRefunded_full. fold d k.
    destruct (JsMap.get k (donationAttempts w)) as [a0|] eqn:Hget.
    - eexists. exists 1%nat. split; [reflexivity|].
      cbn [clock gateway donationAttempts].
      split; [reflexivity|]. split; [reflexivity|].
      right. split; [reflexivity|]. eexists. split; [reflexivity|].
      split; [reflexivity|]. left. exists a0. repeat split.
    - eexists. exists 3%nat. split; [reflexivity|].
      cbn [clock gateway donationAttempts].
      split; [reflexivity|]. split; [reflexivity|].
      right. split; [reflexivity|]. eexists. split; [reflexivity|].
      split; [reflexivity|].
      right. split; [reflexivity|]. split; [apply new_attempt_fields|].
      exists 1%nat, 2%nat. cbn. repeat split; lia. }
  exists w, 0%nat. split.
  - now destruct (event payload =? "order.created")%string.
  - split; [reflexivity|]. split; [reflexivity|]. left. repeat split.
Qed.

(** What [processWebhook] does to the world: nothing, or what [dispatch]
    does for the payload of the body, and one reading of the clock. *)
Lemma processWebhook_step (req : Request) (w : World) :
  snd (processWebhook secret req w) = w
  \/ exists payload,
       JSON_parse_payload (body req) = Some payload
       /\ snd (processWebhook secret req w)
          = after_readings 1 (snd (dispatch secret payload w)).
Proof.
  destruct (validateSignature secret (body req)
              (headers req "x-sympla-signature")) eqn:Hsig.
  - destruct (JSON_parse_payload (body req)) as [payload|] eqn:Hp.
    + right. exists payload. split; [reflexivity|].
      now rewrite (processWebhook_dispatches secret req w payload Hsig Hp).
    + left. now rewrite (processWebhook_malformed secret req w Hsig Hp).
  - left. now rewrite (processWebhook_unauthorized secret req w Hsig).
Qed.

(** A property of the world that [dispatch] and a reading of the clock keep
    is kept by any sequence of requests. *)
Lemma serve_keeps (P : World -> Prop) :
  (forall payload w, P w -> P (snd (dispatch secret payload w))) ->
  (forall w, P w -> P (after_readings 1 w)) ->
  forall requests w, P w -> P (serve secret requests w).
Proof.
  intros Hd Hr requests.
  induction requests as [|req requests IH]; intros w Hw; [exact Hw|].
  cbn [serve]. apply IH.
  destruct (processWebhook_step req w) as [-> | (payload & _ & ->)];
    [exact Hw|].
  apply Hr, Hd, Hw.
Qed.

End OneStep.

(* ================================================================== *)
(** * [WebhookHandler]: sequences of events and of requests *)
(* ================================================================== *)

Section Sequences.

Context {runtime : NodeRuntime}.

Variable secret : string.

Lemma dispatch_all_keeps (P : World -> Prop) :
  (forall payload w, P w -> P (snd (dispatch secret payload w))) ->
  forall events w, P w -> P (dispatch_all secret events w).
Proof.
  intros Hd events.
  induction events as [|ev events IH]; intros w Hw; [exact Hw|].
  cbn [dispatch_all]. apply IH, Hd, Hw.
Qed.

(** The entries [dispatch] leaves are those it found, but for the one of the
    event's order. *)
Lemma dispatch_entries (payload : SymplaWebhookPayload) (w : World)
  (k : string) (a : DonationAttempt) :
  In (k, a) (donationAttempts (snd (dispatch secret payload w))) ->
  In (k, a) (donationAttempts w)
  \/ k = order_identifier (data payload)
     /\ JsMap.get k (donationAttempts (snd (dispatch secret payload w)))
        = Some a.
Proof.
  destruct (dispatch_step secret payload w)
    as (w' & n & Hrun & _ & _ & [(_ & Hmap & _) | (_ & a1 & Hmap & _)]);
    rewrite Hrun; cbn [snd]; rewrite Hmap; [now left|].
  intros Hin. apply In_set in Hin. destruct Hin as [[= -> ->] | Hin].
  - right. split; [reflexivity | apply get_set_same].
  - now left.
Qed.

Lemma dispatch_well_kept (payload : SymplaWebhookPayload) (w : World) :
  (forall k a, In (k, a) (donationAttempts w) -> well_kept k a) ->
  forall k a,
    In (k, a) (donationAttempts (snd (dispatch secret payload w))) ->
    well_kept k a.
Proof.
  intros Hinv k a.
  destruct (dispatch_step secret payload w)
    as (w' & n & Hrun & _ & _ & [(_ & Hmap & _) | (_ & a1 & Hmap & Hs & Ha)]);
    rewrite Hrun; cbn [snd]; rewrite Hmap; [apply Hinv|].
  intros Hin. apply In_set in Hin. destruct Hin as [[= -> ->] | Hin];
    [|now apply Hinv].
  destruct Ha as [(a0 & Hget & Heq & _) | (Hk & Hn & _)].
  - destruct (Hinv _ _ (get_In _ _ _ Hget)) as (Hk0 & _ & Hn0).
    rewrite Heq. now repeat split.
  - now repeat split.
Qed.

Lemma dispatch_well_stamped (payload : SymplaWebhookPayload) (w : World) :
  well_stamped w -> well_stamped (snd (dispatch secret payload w)).
Proof.
  intros [Hm Hinv].
  destruct (dispatch_step secret payload w)
    as (w' & n & Hrun & Hclock & _ & Hcases).
  rewrite Hrun; cbn [snd]. unfold well_stamped. rewrite Hclock.
  split; [now apply monotone_shift|].
  assert (Hn : (clock w 0 <= clock w (n + 0))%Z)
    by (apply monotone_le; [exact Hm | lia]).
  destruct Hcases as [(_ & Hmap & _) | (_ & a1 & Hmap & _ & Ha)];
    rewrite Hmap; intros k a Hin.
  - specialize (Hinv k a Hin). lia.
  - apply In_set in Hin. destruct Hin as [[= -> ->] | Hin];
      [|specialize (Hinv k a Hin); lia].
    destruct Ha as [(a0 & Hget & Heq & ->) | (_ & _ & i & j & -> & -> & Hij)].
    + specialize (Hinv _ _ (get_In _ _ _ Hget)).
      rewrite Heq. cbn [created_at updated_at set_status].
      assert (clock w 0 <= clock w (1 + 0))%Z
        by (apply monotone_le; [exact Hm | lia]).
      lia.
    + split; apply monotone_le; try exact Hm; lia.
Qed.

Lemma after_readings_well_stamped (w : World) :
  well_stamped w -> well_stamped (after_readings 1 w).
Proof.
  intros [Hm Hinv]. split; cbn [after_readings clock donationAttempts].
  - now apply (monotone_shift _ 1).
  - intros k a Hin. specialize (Hinv k a Hin).
    assert (clock w 0 <= clock w (1 + 0))%Z
      by (apply monotone_le; [exact Hm | lia]).
    lia.
Qed.

End Sequences.

(** X9.  The events of other orders leave the entry of an order as it is:
    through any sequence of events none of which is for the order [k], what
    the map holds for [k] does not change. *)
Theorem other_orders_are_left_alone
  {runtime : NodeRuntime} (secret : string)
  (events : list SymplaWebhookPayload) (w : World) (k : string) :
  (forall ev, In ev events -> order_identifier (data ev) <> k) ->
  JsMap.get k (donationAttempts (dispatch_all secret events w))
  = JsMap.get k (donationAttempts w).
Proof.
  revert w. induction events as [|ev events IH]; intros w Hne; [reflexivity|].
  cbn [dispatch_all]. rewrite IH by (intros ev' Hin; apply Hne; now right).
  destruct (dispatch_step secret ev w)
    as (w' & n & Hrun & _ & _ & [(_ & Hmap & _) | (_ & a & Hmap & _)]);
    rewrite Hrun; cbn [snd]; rewrite Hmap; [reflexivity|].
  apply get_set_other, Hne. now left.
Qed.

Lemma other_orders_are_left_alone_witness :
  JsMap.get "order-999"
    (donationAttempts
       (@dispatch_all node "s"
          [an_event "order.approved"; an_event "order.refunded"]
          (world_at 7 true)))
  = None.
Proof.
  rewrite (@other_orders_are_left_alone node "s"
             [an_event "order.approved"; an_event "order.refunded"]
             (world_at 7 true) "order-999").
  - reflexivity.
  - intros ev [<- | [<- | []]]; discriminate.
Defined.

(** X10.  The gateway is called once for each [order.approved] event and for
    no other event: after a sequence of events the calls made are as many
    as the approvals in it. *)
Theorem gateway_called_once_per_approval
  {runtime : NodeRuntime} (secret : string)
  (events : list SymplaWebhookPayload) (w : World) :
  let approvals :=
    List.length
      (filter (fun ev => (event ev =? "order.approved")%string) events) in
  forall i request,
    gateway (dispatch_all secret events w) i request
    = gateway w (approvals + i)%nat request.
Proof.
  revert w. induction events as [|ev events IH]; intros w approvals i request;
    [reflexivity|].
  cbn [dispatch_all]. rewrite IH.
  destruct (dispatch_step secret ev w) as (w' & n & Hrun & _ & Hg & _).
  rewrite Hrun; cbn [snd]. rewrite Hg. unfold approvals. cbn [filter].
  destruct (event ev =? "order.approved")%string; [|reflexivity].
  reflexivity.
Qed.


(** X12.  What the map holds is well kept by any sequence of requests: every
    attempt is stored under its own [sympla_order_id], in one of the four
    statuses a handler ends in (never [PENDING_USER_ACTION], which is set and
    replaced within one call, nor [CONSENT_GIVEN]), and with a name of the
    donor that is not empty. *)
Theorem stored_attempts_are_settled
  {runtime : NodeRuntime} (secret : string)
  (requests : list Request) (w : World) :
  (forall k a,
     In (k, a) (donationAttempts w) ->
     sympla_order_id a = k /\ is_settled (status a) = true
     /\ donor_name a <> EmptyString) ->
  forall k a,
    In (k, a) (donationAttempts (serve secret requests w)) ->
    sympla_order_id a = k /\ is_settled (status a) = true
    /\ donor_name a <> EmptyString.
Proof.
  intros Hinv.
  apply (serve_keeps secret
           (fun w => forall k a,
                In (k, a) (donationAttempts w) -> well_kept k a)).
  - intros payload w0 H0. now apply dispatch_well_kept.
  - intros w0 H0. exact H0.
  - exact Hinv.
Qed.

Lemma stored_attempts_are_settled_witness :
  Forall
    (fun entry =>
       sympla_order_id (snd entry) = fst entry
       /\ is_settled (status (snd entry)) = true
       /\ donor_name (snd entry) <> EmptyString)
    (donationAttempts
       (@serve node "s"
          [Server.simulated_request "s"
             (Buffer.from
                (JSON.stringify_payload (an_event "order.approved")));
           request_with None []]
          (world_at 7 true))).
Proof.
  apply Forall_forall. intros [k a] Hin. cbn [fst snd].
  revert k a Hin.
  apply (@stored_attempts_are_settled node "s"
           [Server.simulated_request "s"
              (Buffer.from
                 (JSON.stringify_payload (an_event "order.approved")));
            request_with None []]
           (world_at 7 true)).
  intros k a [].
Defined.

(** X13.  With a clock that never goes back, the instants of every stored
    attempt are in order, through any sequence of requests: [created_at] is
    not after [updated_at], which is not after the present. *)
Theorem stored_attempts_are_stamped_in_order
  {runtime : NodeRuntime} (secret : string)
  (requests : list Request) (w : World) :
  monotone (clock w) ->
  (forall k a,
     In (k, a) (donationAttempts w) ->
     (created_at a <= updated_at a <= clock w 0)%Z) ->
  let w' := serve secret requests w in
  forall k a,
    In (k, a) (donationAttempts w') ->
    (created_at a <= updated_at a <= clock w' 0)%Z.
Proof.
  intros Hm Hinv w'.
  assert (H : well_stamped w') by
    (apply (serve_keeps secret well_stamped);
     [ intros payload w0; apply dispatch_well_stamped
     | apply after_readings_well_stamped
     | now split ]).
  apply H.
Qed.

Lemma stored_attempts_are_stamped_in_order_witness :
  Forall
    (fun entry =>
       (created_at (snd entry) <= updated_at (snd entry) <= 7)%Z)
    (donationAttempts
       (@serve node "s"
          [Server.simulated_request "s"
             (Buffer.from
                (JSON.stringify_payload (an_event "order.approved")));
           request_with None []]
          (world_at 7 true))).
Proof.
  apply Forall_forall. intros [k a] Hin. cbn [fst snd].
  pose proof (@stored_attempts_are_stamped_in_order node "s"
                [Server.simulated_request "s"
                   (Buffer.from
                      (JSON.stringify_payload (an_event "order.approved")));
                 request_with None []]
                (world_at 7 true)) as H.
  cbv zeta in H.
  refine (_ (H _ _ k a Hin)).
  - intros [H1 H2]. split; [exact H1|].
    refine (Z.le_trans _ _ _ H2 _). vm_compute. discriminate.
  - intros i. cbn. lia.
  - intros k0 a0 [].
Defined.

(** X14.  [getDonations] lists one attempt for each order that an approval,
    a cancellation or a refund named, in the order in which the orders were
    first named: from an empty map, the [sympla_order_id]s of the list are
    the orders of those events, each at its first occurrence. *)
Theorem getDonations_in_order_of_first_event
  {runtime : NodeRuntime} (secret : string)
  (events : list SymplaWebhookPayload) (w : World) :
  donationAttempts w = JsMap.empty ->
  map sympla_order_id (getDonations (dispatch_all secret events w))
  = first_seen [] (orders_set events).
Proof.
  intros Hempty.
  assert (Hkeys : forall events w,
             JsMap.keys (donationAttempts (dispatch_all secret events w))
             = first_seen (JsMap.keys (donationAttempts w))
                 (orders_set events)).
  { clear. intros events.
    induction events as [|ev events IH]; intros w; [reflexivity|].
    cbn [dispatch_all]. rewrite IH. unfold orders_set. cbn [filter].
    destruct (dispatch_step secret ev w)
      as (w' & n & Hrun & _ & _ & [(-> & Hmap & _) | (-> & a & Hmap & _)]);
      rewrite Hrun; cbn [snd]; rewrite Hmap; [reflexivity|].
    cbn [map first_seen]. now rewrite keys_set. }
  assert (Hkept : forall k a,
             In (k, a) (donationAttempts (dispatch_all secret events w)) ->
             well_kept k a).
  { apply (dispatch_all_keeps secret
             (fun w => forall k a,
                  In (k, a) (donationAttempts w) -> well_kept k a)).
    - intros payload w0 H0. now apply dispatch_well_kept.
    - rewrite Hempty. intros k a []. }
  specialize (Hkeys events w). rewrite Hempty in Hkeys. cbn in Hkeys.
  rewrite <- Hkeys. unfold getDonations, JsMap.values, JsMap.keys.
  rewrite map_map. apply map_ext_in. intros [k a] Hin.
  now destruct (Hkept k a Hin).
Qed.

Lemma getDonations_in_order_of_first_event_witness :
  map sympla_order_id
    (getDonations
       (@dispatch_all node "s"
          [an_event "order.refunded"; an_event "order.created";
           an_event "order.approved"]
          (world_at 7 true)))
  = ["order-123"].
Proof.
  rewrite (@getDonations_in_order_of_first_event node "s"
             [an_event "order.refunded"; an_event "order.created";
              an_event "order.approved"]
             (world_at 7 true) eq_refl).
  reflexivity.
Defined.

(* ================================================================== *)
(** * The earlier handler, the routes and the client *)
(* ================================================================== *)

(** X15.  The earlier handler processes approvals only: on a request whose
    signature is accepted and whose body parses, it does what
    [processWebhook] does, but for [order.cancelled] and [order.refunded],
    which it acknowledges without a look at the map. *)
Theorem earlier_handler_ignores_cancel_and_refund
  {runtime : NodeRuntime} (secret : string) (req : Request) (w : World)
  (payload : SymplaWebhookPayload) :
  validateSignature secret (body req) (headers req "x-sympla-signature")
  = true ->
  JSON_parse_payload (body req) = Some payload ->
  processWebhook_approved_only secret req w
  = if ((event payload =? "order.cancelled")
        || (event payload =? "order.refunded"))%string
    then (Return {| statusCode := 200;
                    json := Acknowledgment "success"
                              "Webhook processado com sucesso" (clock w 0) |},
          after_readings 1 w)
    else processWebhook secret req w.
Proof.
  intros Hsig Hp.
  unfold processWebhook_approved_only, processWebhook, dispatch, try_catch,
    bind, lift.
  rewrite Hsig, Hp. cbn [negb].
  destruct (String.eqb_spec (event payload) "order.approved") as [-> | _];
    [reflexivity|].
  destruct (event payload =? "order.cancelled")%string; [reflexivity|].
  destruct (event payload =? "order.refunded")%string; [reflexivity|].
  cbn [orb].
  now destruct (event payload =? "order.created")%string.
Qed.

Lemma earlier_handler_ignores_cancel_and_refund_witness :
  let req :=
    @Server.simulated_request node "s"
      (Buffer.from (JSON.stringify_payload (an_event "order.cancelled"))) in
  map status
    (getDonations
       (snd (@processWebhook_approved_only node "s" req
               (world_with (an_attempt COMPLETED)))))
  = [COMPLETED].
Proof.
  intros req.
  rewrite (@earlier_handler_ignores_cancel_and_refund node "s" req
             (world_with (an_attempt COMPLETED)) (an_event "order.cancelled")).
  - reflexivity.
  - vm_compute. reflexivity.
  - vm_compute. reflexivity.
Defined.




(** X17.  [GET /api/donations] after any sequence of requests on a handler
    that started empty: it lists the attempts of [getDonations] in their
    order, [total] is their number, every item carries the name of the
    donor of its attempt (the fallback [Doador ...] is never used), a settled
    status and the value 5, and the map is left as it was. *)
Theorem api_donations_lists_the_store
  {runtime : NodeRuntime} (secret : string) (requests : list Request)
  (w : World) :
  donationAttempts w = JsMap.empty ->
  let w1 := serve secret requests w in
  exists reply,
    Server.api_donations w1 = (Return reply, after_readings 1 w1)
    /\ Server.total reply = List.length (getDonations w1)
    /\ map Server.item_id (Server.donations reply)
       = map id (getDonations w1)
    /\ map Server.item_orderId (Server.donations reply)
       = JsMap.keys (donationAttempts w1)
    /\ map Server.item_donorName (Server.donations reply)
       = map donor_name (getDonations w1)
    /\ Forall (fun item =>
                 Server.item_value item = 5%Z
                 /\ is_settled (Server.item_status item) = true)
         (Server.donations reply).
Proof.
  intros Hempty w1.
  assert (Hkept : forall k a,
             In (k, a) (donationAttempts w1) -> well_kept k a).
  { apply (serve_keeps secret
             (fun w => forall k a,
                  In (k, a) (donationAttempts w) -> well_kept k a)).
    - intros payload w0 H0. now apply dispatch_well_kept.
    - intros w0 H0. exact H0.
    - rewrite Hempty. intros k a []. }
  eexists. split; [reflexivity|]. cbn [Server.total Server.donations].
  unfold getDonations, JsMap.values, JsMap.keys.
  rewrite !map_map, !length_map.
  split; [reflexivity|]. split; [reflexivity|].
  split; [|split].
  - apply map_ext_in. intros [k a] Hin. cbn.
    now destruct (Hkept k a Hin).
  - apply map_ext_in. intros [k a] Hin. cbn.
    destruct (Hkept k a Hin) as (_ & _ & Hn).
    destruct (donor_name a); [congruence | reflexivity].
  - apply Forall_forall. intros item Hin.
    apply in_map_iff in Hin. destruct Hin as ([k a'] & <- & Hin).
    cbn. split; [reflexivity|]. now destruct (Hkept k a' Hin).
Qed.

Lemma api_donations_lists_the_store_witness :
  let w1 :=
    @serve node "s"
      [Server.simulated_request "s"
         (Buffer.from (JSON.stringify_payload (an_event "order.approved")))]
      (world_at 7 true) in
  exists reply,
    Server.api_donations w1 = (Return reply, after_readings 1 w1)
    /\ Server.total reply = List.length (getDonations w1).
Proof.
  intros w1.
  destruct (@api_donations_lists_the_store node "s"
              [Server.simulated_request "s"
                 (Buffer.from
                    (JSON.stringify_payload (an_event "order.approved")))]
              (world_at 7 true) eq_refl)
    as (reply & Hrun & Htotal & _).
  exists reply. split; [exact Hrun | exact Htotal].
Defined.


(** X19.  The token [GET /events/:eventId/qrcode] puts in its link passes
    the check of [GET /donation/initiate], which only looks at the first
    three characters, and, when the identifier of the event has no dot, is
    not a token that [validateToken] accepts, under any secret. *)
Theorem qrcode_token_is_shown_the_page_but_not_valid
  {runtime : NodeRuntime} (secret eventId : string) (w : World) :
  JsString.count "." eventId = 0%nat ->
  Server.donation_initiate (Some (Server.qrcode_token eventId))
  = Server.Page (Server.qrcode_token eventId)
  /\ validateToken secret (Server.qrcode_token eventId) w = (Return None, w).
Proof.
  intros Hdots. split; [reflexivity|].
  apply validateToken_no_separator.
  unfold Server.qrcode_token.
  assert (Happ : forall a b,
             JsString.count "." (a ++ b)
             = (JsString.count "." a + JsString.count "." b)%nat).
  { intros a b. induction a as [|c a IH]; simpl; [reflexivity|].
    rewrite IH. now destruct (c =? ".")%char. }
  rewrite !Happ, Hdots. reflexivity.
Qed.

Lemma qrcode_token_is_shown_the_page_but_not_valid_witness :
  Server.donation_initiate (Some (Server.qrcode_token "EVT456"))
  = Server.Page (Server.qrcode_token "EVT456")
  /\ @validateToken node "s" (Server.qrcode_token "EVT456") (world_at 7 true)
     = (Return None, world_at 7 true).
Proof.
  apply (@qrcode_token_is_shown_the_page_but_not_valid node "s" "EVT456"
           (world_at 7 true)).
  reflexivity.
Defined.

(** X20.  [authenticateApiKey] lets a request through exactly when its
    [x-api-key] is the configured key, and answers 401 otherwise; when
    [API_KEY] is unset or empty the configured key is the demonstration key,
    so an empty header is never let through. *)
Theorem authenticateApiKey_passes_exactly (API_KEY apiKey : option string) :
  let validApiKey := Server.or_else API_KEY "agroforestree-api-key-demo" in
  validApiKey <> EmptyString
  /\ (Server.authenticateApiKey API_KEY apiKey = Server.Next
      <-> apiKey = Some validApiKey)
  /\ (apiKey <> Some validApiKey ->
      Server.authenticateApiKey API_KEY apiKey
      = Server.ErrorReply 401 "API Key invalida ou ausente")
  /\ (Server.is_falsy API_KEY = true ->
      validApiKey = "agroforestree-api-key-demo").
Proof.
  intros validApiKey.
  assert (Hne : validApiKey <> EmptyString).
  { unfold validApiKey. destruct API_KEY as [[|c s]|]; discriminate. }
  split; [exact Hne|].
  unfold Server.authenticateApiKey. fold validApiKey.
  split; [|split].
  - destruct apiKey as [[|c k]|]; cbn [Server.is_falsy orb negb].
    + split; [discriminate | intros [= H]; congruence].
    + destruct (String.eqb_spec (String c k) validApiKey) as [Heq | Hk];
        cbn [negb]; split; congruence.
    + split; discriminate.
  - intros Hother. destruct apiKey as [[|c k]|]; cbn [Server.is_falsy orb];
      try reflexivity.
    destruct (String.eqb_spec (String c k) validApiKey) as [Heq | Hk];
      [congruence | reflexivity].
  - unfold validApiKey. destruct API_KEY as [[|c s]|];
      cbn; congruence.
Qed.

Lemma includes_app (sub a b : string) :
  includes sub (a ++ sub ++ b) = true.
Proof.
  assert (Hp : String.prefix sub (sub ++ b) = true).
  { induction sub as [|c sub IH]; cbn; [now destruct b|].
    destruct (ascii_dec c c); [exact IH | congruence]. }
  induction a as [|c a IH]; cbn [String.append].
  - destruct (sub ++ b)%string; cbn [includes]; rewrite Hp; reflexivity.
  - cbn [includes]. rewrite IH. apply orb_true_r.
Qed.

(** X21.  With a base URL that contains [api.agroforestree.com], as the
    default of the configuration does, [createDonation] of the client
    simulates the gateway: it never fails and posts nothing (the result is
    the same whatever [post] is), and answers [PENDING_PLANTING] with an
    identifier and a certificate made of readings of the clock. *)
Theorem client_createDonation_simulates
  (before after : string)
  (post : string -> AgroforestreeApiRequest -> M AgroforestreeApiResponse)
  (toISOString : Z -> string) (text_of : JsError -> string)
  (donationData : AgroforestreeApiRequest) (w : World) :
  client_createDonation (before ++ "api.agroforestree.com" ++ after)
    post toISOString text_of donationData w
  = (Return
       {| donationId := ("AGF-" ++ JsString.of_number (clock w 0))%string;
          gateway_status := "PENDING_PLANTING";
          createdAt := toISOString (clock w 1);
          certificateUrl :=
            Some ("https://certificados.agroforestree.com/"
                  ++ JsString.of_number (clock w 2) ++ ".pdf")%string |},
     after_readings 3 w).
Proof.
  unfold client_createDonation. rewrite includes_app. reflexivity.
Qed.

(** X22.  With any other base URL [createDonation] of the client is the
    [post] to [/donations]: it returns what the request returns, and when
    the request fails it throws an [Error] whose message starts with the
    text of the failure notice, never the error of the request itself. *)
Theorem client_createDonation_wraps_errors
  (baseURL : string)
  (post : string -> AgroforestreeApiRequest -> M AgroforestreeApiResponse)
  (toISOString : Z -> string) (text_of : JsError -> string)
  (donationData : AgroforestreeApiRequest) (w : World) :
  includes "api.agroforestree.com" baseURL = false ->
  let outcome := post "/donations" donationData w in
  client_createDonation baseURL post toISOString text_of donationData w
  = (match fst outcome with
     | Return response => Return response
     | Throw error =>
         Throw (Error ("Falha na criacao de doacao: " ++ text_of error)%string)
     end, snd outcome).
Proof.
  intros Hreal outcome. unfold client_createDonation, try_catch, throw.
  rewrite Hreal. fold outcome.
  now destruct outcome as [[response | error] w'].
Qed.

Lemma client_createDonation_wraps_errors_witness :
  client_createDonation "http://localhost:3000"
    (fun _ _ => throw TypeError) (fun _ => EmptyString)
    (fun _ => "TypeError") (donationRequest_of an_order) (world_at 7 true)
  = (Throw (Error "Falha na criacao de doacao: TypeError"), world_at 7 true).
Proof.
  rewrite (client_createDonation_wraps_errors "http://localhost:3000"
             (fun _ _ => throw TypeError) (fun _ => EmptyString)
             (fun _ => "TypeError") (donationRequest_of an_order)
             (world_at 7 true) eq_refl).
  reflexivity.
Defined.

Lemma stringify_token_bytes (t : DonationToken) :
  exists rest,
    Buffer.from (JSON.stringify_token t) = x7b :: x22 :: x6f :: rest.
Proof.
  unfold JSON.stringify_token, JSON.key. cbn [String.append Buffer.from].
  eexists. reflexivity.
Qed.

Lemma encode_starts (rest : list byte) :
  exists tail,
    Base64url.encode (x7b :: x22 :: x6f :: rest)
    = String "e" (String "y" (String "J" tail)).
Proof.
  unfold Base64url.encode. cbn [Base64url.sextets_of_bytes].
  cbn [Base64url.chars_of_sextets]. eexists. reflexivity.
Qed.

(** X23.  On the reference runtime every token [generateDonationToken]
    issues starts with [eyJ], the encoding of the opening of a JSON object,
    so that [GET /donation/initiate] shows it the page. *)
Theorem issued_token_is_shown_the_page
  (secret orderId eventId : string) (w : World) :
  exists token,
    fst (@generateDonationToken node secret orderId eventId w) = Return token
    /\ Server.donation_initiate (Some token) = Server.Page token.
Proof.
  rewrite generateDonationToken_wire. cbn [fst].
  eexists. split; [reflexivity|].
  unfold wire. cbn [base64url_encode JSON_stringify node].
  destruct (stringify_token_bytes
              {| orderId := orderId; eventId := eventId;
                 timestamp := clock w 0; exp := clock w 1 + DAY |})
    as [rest ->].
  destruct (encode_starts rest) as [tail ->].
  cbn [String.append]. unfold Server.donation_initiate.
  assert (Hprefix : forall s,
             String.prefix "eyJ" (String "e" (String "y" (String "J" s)))
             = true)
    by (intros s; destruct s; reflexivity).
  now rewrite Hprefix.
Qed.

(* ================================================================== *)
(** * The repository's tests, replayed on the reference runtime *)
(* ================================================================== *)

(** [signature.test.ts]: a correct signature, a wrong one, an empty one, a
    signature of another payload, a malformed one. *)
Example test_validateSignature :
  let payload := Buffer.from "{test: data}" in
  let tampered := Buffer.from "{test: tampered}" in
  let valid := @sign node "test-secret-key" payload in
  @validateSignature node "test-secret-key" payload (Some valid) = true
  /\ @validateSignature node "test-secret-key" payload
       (Some "sha256=invalid-signature") = false
  /\ @validateSignature node "test-secret-key" payload (Some EmptyString)
     = false
  /\ @validateSignature node "test-secret-key" payload None = false
  /\ @validateSignature node "test-secret-key" tampered (Some valid) = false
  /\ @validateSignature node "test-secret-key" payload
       (Some "not-a-valid-signature-format") = false.
Proof. vm_compute. repeat split. Qed.

(** [signature.test.ts]: a recent timestamp, one 10 minutes old or ahead
    under a tolerance of 5, one 8 minutes old under a tolerance of 10, and
    one that is no timestamp. *)
Example test_validateTimestamp :
  let at_ (now : Z) := world_at now false in
  let t := "2009-02-13T23:31:30.000Z" in
  fst (@validateTimestamp node t None (at_ 1234567890000%Z)) = Return true
  /\ fst (@validateTimestamp node t (Some 5%Z) (at_ (1234567890000 + 600000)%Z))
     = Return false
  /\ fst (@validateTimestamp node t (Some 10%Z) (at_ (1234567890000 + 480000)%Z))
     = Return true
  /\ fst (@validateTimestamp node t (Some 5%Z) (at_ (1234567890000 - 600000)%Z))
     = Return false
  /\ fst (@validateTimestamp node "not-a-timestamp" None (at_ 1234567890000%Z))
     = Return false.
Proof. vm_compute. repeat split. Qed.

(** [tokenGenerator.test.ts]: a token with another signature, a malformed
    token, a token that is not base64, a token that is 25 hours old, a token
    that is 1 hour old, and a token validated under another secret. *)
Example test_validateToken :
  let payload := "eyJvcmRlcklkIjoib3JkZXItMTIzIiwiZXZlbnRJZCI6ImV2ZW50LTQ1NiIsInRpbWVzdGFtcCI6MTIzNDU2Nzg5MDAwMCwiZXhwIjoxMjM0NjU0MjkwMDAwfQ" in
  let token :=
    (payload ++ ".yFHSTqu5NtCKQ9Lz9vFML9qxb2bnqXhLF4obVlMWgqA")%string in
  let validate secret t (now : Z) :=
    fst (@validateToken node secret t (world_at now false)) in
  fst (@generateDonationToken node "test-secret-key" "order-123" "event-456"
         (world_at 1234567890000 false)) = Return token
  /\ validate "test-secret-key" (payload ++ ".invalid-signature")%string
       1234567890000%Z = Return None
  /\ validate "test-secret-key" "not.a.valid.token.format" 1234567890000%Z
     = Return None
  /\ validate "test-secret-key" "invalid-base64.valid-signature"
       1234567890000%Z = Return None
  /\ validate "test-secret-key" token (1234567890000 + 25 * 3600000)%Z
     = Return None
  /\ validate "test-secret-key" token (1234567890000 + 3600000)%Z
     = Return (Some {| orderId := "order-123"; eventId := "event-456";
                       timestamp := 1234567890000;
                       exp := 1234654290000 |})
  /\ validate "different-secret" token 1234567890000%Z = Return None.
Proof. vm_compute. repeat split. Qed.

(** [webhookHandler.test.ts]: no attempt at first; after an approved order,
    one attempt, [COMPLETED] when the gateway answers and [DECLINED] when it
    does not; a body that is no JSON is answered 500. *)
Example test_WebhookHandler :
  getDonations (world_at 0 true) = []
  /\ map status
       (getDonations
          (snd (@handleOrderApproved node "test-webhook-secret" an_order
                  (world_at 0 true)))) = [COMPLETED]
  /\ map sympla_order_id
       (getDonations
          (snd (@handleOrderApproved node "test-webhook-secret" an_order
                  (world_at 0 true)))) = ["order-123"]
  /\ map status
       (getDonations
          (snd (@handleOrderApproved node "test-webhook-secret" an_order
                  (world_at 0 false)))) = [DECLINED]
  /\ fst (@processWebhook node "s"
            (request_with
               (Some (@sign node "s" (Buffer.from "invalid-json")))
               (Buffer.from "invalid-json"))
            (world_at 0 true))
     = Return {| statusCode := 500;
                 json := InternalError "Internal server error" |}.
Proof. vm_compute. repeat split. Qed.
